(** * MP4TagReader: the atom-tree loader and the tag decoder of jsmediatags

    A shallow embedding of [src/MP4TagReader.js].  The reader walks the
    chain of MP4 atoms twice: [_loadAtom] asks the byte source for the
    ranges the decoder will need, one request per atom, and [_readAtom]
    decodes the tag atoms found under [moov.udta.meta.ilst].

    JavaScript numbers are modelled by [jsNumber]: an integer or [NaN].
    Offsets are integers far below 2^53, so [Z] arithmetic is exact. *)

From Stdlib Require Import ZArith Ascii String List Sorted Lia.
From stdpp Require Import base decidable option list strings gmap fin_maps.

Local Open Scope string_scope.
Local Open Scope Z_scope.

(** ** JavaScript numbers *)

Inductive jsNumber : Type :=
| Num (z : Z)
| NaN.

Module Js.

(** [a + b], [a - b], [a < b] and [a == 0] on numbers; every comparison
    with [NaN] is false and every sum with [NaN] is [NaN]. *)
Definition add (a b : jsNumber) : jsNumber :=
  match a, b with
  | Num x, Num y => Num (x + y)
  | _, _ => NaN
  end.

Definition sub (a b : jsNumber) : jsNumber :=
  match a, b with
  | Num x, Num y => Num (x - y)
  | _, _ => NaN
  end.

Definition lt (a b : jsNumber) : bool :=
  match a, b with
  | Num x, Num y => x <? y
  | _, _ => false
  end.

Definition isZero (a : jsNumber) : bool :=
  match a with
  | Num x => x =? 0
  | NaN => false
  end.

End Js.

(** ** The byte source

    [MediaFileReader] is the interface the reader consumes (spec §6).  Its
    implementation is not part of [src/]; the traversal code is embedded
    over an arbitrary implementation of the read accessors, which are
    taken to return (a source that throws aborts the pass outside the code
    embedded here).  The requests made through [loadRange] are part of
    what the loader yields, and how the source answers them is an input
    of the loader (see [_loadAtom]). *)

Record MediaFileReader : Type := {
  getSize : Z;
  getByteAt : Z -> jsNumber;
  getShortAt : Z -> bool -> jsNumber;
  getLongAt : Z -> bool -> jsNumber;
  getInteger24At : Z -> bool -> jsNumber;
  getStringAt : Z -> Z -> string;
  getBytesAt : Z -> jsNumber -> list jsNumber;
  getStringWithCharsetAt : Z -> jsNumber -> string -> string
}.

(** ** Tag values and lookup tables *)

(** What [_readAtom] stores in the [tag] object. *)
Inductive value : Type :=
| VUndefined
| VNumber (n : jsNumber)
| VString (s : string)
| VPicture (format : string) (data : list jsNumber)
| VComment (text : value).

(** The copyright sign, char code 169, which starts many FourCCs. *)
Definition c169 : ascii := ascii_of_nat 169.

Definition TYPES : gmap Z string :=
  list_to_map
    [ (0, "uint8"); (1, "text"); (13, "jpeg"); (14, "png"); (21, "uint8") ].

(** [TYPES[klass]]: the property named by the decimal spelling of [klass]. *)
Definition TYPES_at (klass : jsNumber) : option string :=
  match klass with
  | Num k => TYPES !! k
  | NaN => None
  end.

Definition ATOMS : gmap string (list string) :=
  list_to_map
    [ (String c169 "alb", ["album"]);
      (String c169 "art", ["artist"]);
      (String c169 "ART", ["artist"]);
      ("aART", ["artist"]);
      (String c169 "day", ["year"]);
      (String c169 "nam", ["title"]);
      (String c169 "gen", ["genre"]);
      ("trkn", ["track"]);
      (String c169 "wrt", ["composer"]);
      (String c169 "too", ["encoder"]);
      ("cprt", ["copyright"]);
      ("covr", ["picture"]);
      (String c169 "grp", ["grouping"]);
      ("keyw", ["keyword"]);
      (String c169 "lyr", ["lyrics"]);
      (String c169 "cmt", ["comment"]);
      ("tmpo", ["tempo"]);
      ("cpil", ["compilation"]);
      ("disk", ["disc"]) ].

Definition UNSUPPORTED_ATOMS : gmap string Z :=
  list_to_map [ ("----", 1) ].

Definition metadataPath : string := "moov.udta.meta.ilst".

Definition _isContainerAtom (atomName : string) : bool :=
  bool_decide (atomName ∈ ["moov"; "udta"; "meta"; "ilst"]).

Definition _canReadAtom (atomName : string) : bool :=
  negb (String.eqb atomName "----").

(** [(parentAtomFullName ? parentAtomFullName + "." : "") + atomName]; the
    parent is [None] for [undefined], and both [undefined] and the empty
    string are falsy. *)
Definition atomFullName (parentAtomFullName : option string) (atomName : string) : string :=
  match parentAtomFullName with
  | None => atomName
  | Some p => if String.eqb p "" then atomName else p +:+ "." +:+ atomName
  end.

(** [parentAtomFullName === "moov.udta.meta.ilst"]. *)
Definition underMetadataPath (parentAtomFullName : option string) : bool :=
  match parentAtomFullName with
  | None => false
  | Some p => String.eqb p metadataPath
  end.

(** ** The Value Decoder: [_readAtom] and [_parseData] *)

Abbreviation Tag := (gmap string value).

(** Lines 156-197: the value atom at [seek], found under the metadata
    path and readable, is decoded and stored under its raw FourCC.  The
    entry [ATOMS[atomName]] is looked up by the source and never used.

    [atomData] is the variable that line 170 declares with [var]: it
    belongs to the call of [_readAtom] and not to the pass of the loop,
    and [var atomData;] assigns nothing to it.  The [switch] has no
    [default], so for a type that is none of its cases, a class code that
    [TYPES] does not list among them, the variable still holds what an
    earlier pass of the same call has put there, [undefined] when there
    was none, and that is what is stored.  The pass yields the mapping
    and the variable as it leaves them. *)
Definition readValueAtom (data : MediaFileReader) (tag : Tag) (atomData : value)
    (seek : Z) (atomSize : jsNumber) (atomName : string) : Tag * value :=
  let klass := getInteger24At data (seek + 16 + 1) true in
  let atom := ATOMS !! atomName in
  let type := TYPES_at klass in
  if String.eqb atomName "trkn" then
    (<["count" := VNumber (getByteAt data (seek + 16 + 13))]>
       (<[atomName := VNumber (getByteAt data (seek + 16 + 11))]> tag),
     atomData)
  else
    let atomHeader := 16 + 4 + 4 in
    let dataStart := seek + atomHeader in
    let dataLength := Js.sub atomSize (Num atomHeader) in
    let atomData :=
      match type with
      | Some t =>
          if String.eqb t "text" then
            VString (getStringWithCharsetAt data dataStart dataLength "utf-8")
          else if String.eqb t "uint8" then
            VNumber (getShortAt data dataStart false)
          else if String.eqb t "jpeg" || String.eqb t "png" then
            VPicture ("image/" +:+ t) (getBytesAt data dataStart dataLength)
          else atomData
      | None => atomData
      end in
    if String.eqb atomName (String c169 "cmt") then
      (<[atomName := VComment atomData]> tag, atomData)
    else
      (<[atomName := atomData]> tag, atomData).

(** What one pass through the [while] loop does next. *)
Inductive control : Type :=
| Return (tag : Tag)
    (* [return], or the loop condition is false *)
| Descend (tag : Tag) (offset : jsNumber) (length : jsNumber) (atomFullName : string)
    (* [this._readAtom(tag, data, offset, length, atomFullName, indent); return] *)
| Next (tag : Tag) (atomData : value) (seek : jsNumber)
    (* [seek += atomSize], back to the loop condition; [atomData] is the
       variable of that name as the pass leaves it *).

(** The mapping the walk holds after a pass. *)
Definition control_tag (c : control) : Tag :=
  match c with
  | Return tag | Descend tag _ _ _ | Next tag _ _ => tag
  end.

(** Lines 135-200, one pass: the loop condition [seek < offset + length]
    (here [stop] is [offset + length], which the loop never changes) and
    the loop body.  [atomData] is the variable of line 170 as the passes
    before this one have left it.  The [indent] argument only feeds a
    logging call that is commented out and is left out. *)
Definition readAtom_iteration (data : MediaFileReader) (tag : Tag) (atomData : value)
    (seek stop : jsNumber) (parentAtomFullName : option string) : control :=
  match seek with
  | NaN => Return tag
  | Num seek =>
      if Js.lt (Num seek) stop then
        let atomSize := getLongAt data seek true in
        if Js.isZero atomSize then Return tag
        else
          let atomName := getStringAt data (seek + 4) 4 in
          if _isContainerAtom atomName then
            let seek := if String.eqb atomName "meta" then seek + 4 else seek in
            Descend tag (Num (seek + 8)) (Js.sub atomSize (Num 8))
              (atomFullName parentAtomFullName atomName)
          else
            let locals :=
              if underMetadataPath parentAtomFullName && _canReadAtom atomName
              then readValueAtom data tag atomData seek atomSize atomName
              else (tag, atomData) in
            Next locals.1 locals.2 (Js.add (Num seek) atomSize)
      else Return tag
  end.

(** The loop of [_readAtom], run for at most [fuel] passes over all
    nesting levels; [None] when the passes run out.  The recursive call is
    followed by [return], so nothing is left to do at the outer level.
    The mapping [tag] is one object shared by all the calls; the variable
    [atomData] is local to a call, so the recursive call starts with its
    own, which holds [undefined]. *)
Fixpoint readAtom_loop (data : MediaFileReader) (fuel : nat) (tag : Tag)
    (atomData : value) (seek stop : jsNumber) (parentAtomFullName : option string)
    : option Tag :=
  match fuel with
  | O => None
  | S fuel =>
      match readAtom_iteration data tag atomData seek stop parentAtomFullName with
      | Return tag => Some tag
      | Descend tag offset length atomFullName =>
          readAtom_loop data fuel tag VUndefined offset (Js.add offset length)
            (Some atomFullName)
      | Next tag atomData seek =>
          readAtom_loop data fuel tag atomData seek stop parentAtomFullName
      end
  end.

(** A call of [_readAtom]: its variable [atomData] holds [undefined] when
    the loop starts. *)
Definition _readAtom (data : MediaFileReader) (fuel : nat) (tag : Tag)
    (offset length : jsNumber) (parentAtomFullName : option string) : option Tag :=
  readAtom_loop data fuel tag VUndefined offset (Js.add offset length)
    parentAtomFullName.

Definition _parseData (data : MediaFileReader) (fuel : nat)
    (tags : option (list string)) : option Tag :=
  _readAtom data fuel ∅ (Num 0) (Num (getSize data)) None.

(** A header read by the walk: the nesting level of the call of
    [_readAtom] that reads it (0 for the call made by [_parseData]), the
    offset of the header, and the parent path that call holds. *)
Record visit : Type := Visit {
  visit_level : nat;
  visit_offset : Z;
  visit_parent : option string
}.

(** The headers the walk reads, in order. *)
Fixpoint readAtom_visits (data : MediaFileReader) (fuel : nat) (level : nat)
    (tag : Tag) (atomData : value) (seek stop : jsNumber)
    (parentAtomFullName : option string) : list visit :=
  match fuel with
  | O => []
  | S fuel =>
      let here :=
        match seek with
        | Num s => if Js.lt seek stop then [Visit level s parentAtomFullName] else []
        | NaN => []
        end in
      here ++
      match readAtom_iteration data tag atomData seek stop parentAtomFullName with
      | Return _ => []
      | Descend tag offset length atomFullName =>
          readAtom_visits data fuel (S level) tag VUndefined offset
            (Js.add offset length) (Some atomFullName)
      | Next tag atomData seek =>
          readAtom_visits data fuel level tag atomData seek stop parentAtomFullName
      end
  end.

(** ** The Tree Loader: [_loadAtom] and [_loadData] *)

(** What one call of [_loadAtom] does: it calls [callbacks.onSuccess], or
    it requests [range] with a success callback that calls [_loadAtom] at
    [offset] under [parentAtomFullName], and [callbacks.onError] as the
    error callback. *)
Inductive loadAction : Type :=
| CallOnSuccess
| LoadRange (range : Z * Z) (offset : Z) (parentAtomFullName : string).

(** Lines 66-107. *)
Definition loadAtom_call (mediaFileReader : MediaFileReader)
    (offset : Z) (parentAtomFullName : string) : loadAction :=
  if bool_decide (getSize mediaFileReader <= offset) then CallOnSuccess
  else
    match getLongAt mediaFileReader offset true with
    | NaN => CallOnSuccess
    | Num atomSize =>
        if atomSize =? 0 then CallOnSuccess
        else
          let atomName := getStringAt mediaFileReader (offset + 4) 4 in
          if _isContainerAtom atomName then
            let offset := if String.eqb atomName "meta" then offset + 4 else offset in
            let atomFullName := atomFullName (Some parentAtomFullName) atomName in
            LoadRange (offset + 8, offset + 8 + 8) (offset + 8) atomFullName
          else
            let shouldReadAtom := String.eqb parentAtomFullName metadataPath in
            LoadRange
              (offset + (if shouldReadAtom then 0 else atomSize), offset + atomSize + 8)
              (offset + atomSize) parentAtomFullName
    end.

(** Which callback of the caller ends the chain of requests. *)
Inductive callback : Type :=
| onSuccess
| onError.

(** The chain of calls of [_loadAtom] through the success callbacks of
    [loadRange].  [answers] tells how the source answers the requests, one
    after the other: [true] when it calls [onSuccess] back, [false] when
    it calls [onError]; a request past the end of [answers] is never
    answered.  The chain yields the ranges requested, in order, and the
    callback of the caller that ends it ([None] while a request is
    unanswered). *)
Fixpoint _loadAtom (mediaFileReader : MediaFileReader) (answers : list bool)
    (offset : Z) (parentAtomFullName : string) {struct answers}
    : list (Z * Z) * option callback :=
  match loadAtom_call mediaFileReader offset parentAtomFullName with
  | CallOnSuccess => ([], Some onSuccess)
  | LoadRange range offset parentAtomFullName =>
      match answers with
      | [] => ([range], None)
      | true :: answers =>
          let rest := _loadAtom mediaFileReader answers offset parentAtomFullName in
          (range :: rest.1, rest.2)
      | false :: _ => ([range], Some onError)
      end
  end.

(** Lines 37-58: the header of the first atom is requested, then the
    chain starts at offset 0 with the empty parent name. *)
Definition _loadData (mediaFileReader : MediaFileReader) (answers : list bool)
    : list (Z * Z) * option callback :=
  match answers with
  | [] => ([(0, 7)], None)
  | true :: answers =>
      let rest := _loadAtom mediaFileReader answers 0 "" in
      ((0, 7) :: rest.1, rest.2)
  | false :: _ => ([(0, 7)], Some onError)
  end.

(** ** A byte source over an array of bytes *)

Module ArrayFileReader.

(** Modelled from the spec: the byte source (MediaFileReader and its
    array-backed implementation) is missing from [src/].  §6 gives its
    accessors as [totalSize()], [readByteAt(offset)],
    [readUint32At(offset, littleEndianFlag)],
    [readUint16At(offset, bigEndianFlag)], [readUint24At(offset, flag)],
    [readFixedStringAt(offset, length)], [readRawBytesAt(offset, length)]
    and [readTextAt(offset, length, charset)]; §3 has the atom size read
    "little-endian at its start offset" and speaks of an "unreadable/NaN
    size".  This is [readByteAt]: a byte outside the array is unreadable,
    and every number read through it is [NaN]. *)
Definition byteAt (bytes : list Z) (offset : Z) : jsNumber :=
  if bool_decide (0 <= offset) then
    match bytes !! Z.to_nat offset with
    | Some b => Num b
    | None => NaN
    end
  else NaN.

(** Modelled from the spec: the unsigned integer reads of the missing
    byte source combine bytes into one number; this is the number whose
    base-256 digits are [digits], most significant first, and [NaN] when
    a digit is unreadable. *)
Definition join (digits : list jsNumber) : jsNumber :=
  foldl (fun acc d =>
           match acc, d with
           | Num a, Num b => Num (256 * a + b)
           | _, _ => NaN
           end)
        (Num 0) digits.

(** Modelled from the spec: the [readUint16At], [readUint24At] and
    [readUint32At] of the missing byte source, as one read of [width]
    bytes at [offset] in either byte order. *)
Definition uintAt (bytes : list Z) (offset : Z) (width : Z) (bigEndian : bool) : jsNumber :=
  let digits := byteAt bytes <$> seqZ offset width in
  join (if bigEndian then digits else rev digits).

(** Modelled from the spec: [readFixedStringAt] of the missing byte source
    yields one char per byte, the byte being the char code. *)
Definition charAt (bytes : list Z) (offset : Z) : ascii :=
  match byteAt bytes offset with
  | Num b => ascii_of_N (Z.to_N b)
  | NaN => zero
  end.

(** Modelled from the spec: [readFixedStringAt(offset, length)] of the
    missing byte source. *)
Definition stringAt (bytes : list Z) (offset length : Z) : string :=
  string_of_list_ascii (charAt bytes <$> seqZ offset length).

(** Modelled from the spec: the in-memory byte source of §6.  The flag of
    the 32-bit read is the spec's [littleEndianFlag] and that of the 16-bit
    read its [bigEndianFlag]; the spec does not name the flag of the
    24-bit read, which is taken like the 16-bit one.  Charset decoding is
    outside the spec: [readTextAt] yields the bytes as char codes, which
    is exact for ASCII text. *)
Definition make (bytes : list Z) : MediaFileReader := {|
  getSize := Z.of_nat (length bytes);
  getByteAt := byteAt bytes;
  getShortAt := fun offset bigEndianFlag => uintAt bytes offset 2 bigEndianFlag;
  getLongAt := fun offset littleEndianFlag => uintAt bytes offset 4 (negb littleEndianFlag);
  getInteger24At := fun offset flag => uintAt bytes offset 3 flag;
  getStringAt := stringAt bytes;
  getBytesAt := fun offset length =>
    match length with
    | Num n => byteAt bytes <$> seqZ offset n
    | NaN => []
    end;
  getStringWithCharsetAt := fun offset length charset =>
    match length with
    | Num n => stringAt bytes offset n
    | NaN => ""
    end
|}.

End ArrayFileReader.

(** ** Sample files *)

Module Sample.

(** A 32-bit size laid out as the array source reads it back (the low
    byte first), and a FourCC. *)
Definition u32 (n : Z) : list Z :=
  [n mod 256; n / 256 mod 256; n / 65536 mod 256; n / 16777216 mod 256].

Definition fourCC (name : string) : list Z :=
  (fun c => Z.of_N (N_of_ascii c)) <$> list_ascii_of_string name.

(** An atom: its size, its name, then its payload or its children. *)
Definition atom (name : string) (payload : list Z) : list Z :=
  u32 (8 + Z.of_nat (length payload)) ++ fourCC name ++ payload.

(** The payload of a value atom: one [data] sub-atom made of its header,
    a version byte, the three bytes of the class code, four bytes of
    locale and the value.  Only class code 0 is used below. *)
Definition dataAtom (value : list Z) : list Z :=
  atom "data" ([0; 0; 0; 0] ++ [0; 0; 0; 0] ++ value).

(** Track 5 of 12. *)
Definition trkn : list Z := atom "trkn" (dataAtom [0; 0; 0; 5; 0; 12; 0; 0]).

(** Tempo 120, two bytes, the high byte first. *)
Definition tmpo : list Z := atom "tmpo" (dataAtom [0; 120]).

(** An atom the tag table does not know. *)
Definition xxxx : list Z := atom "xxxx" (dataAtom [7; 0]).

(** The unsupported marker atom. *)
Definition dashes : list Z := atom "----" (dataAtom [7; 0]).

(** [moov > udta > meta > ilst > items]; [meta] holds the four bytes of
    [next_item_id] before its children. *)
Definition tagged (items : list Z) : list Z :=
  atom "moov" (atom "udta" (atom "meta" ([0; 0; 0; 0] ++ atom "ilst" items))).

(** [udta] holds a [meta] atom without children, then a sibling of
    [meta]. *)
Definition emptyMeta (sibling : list Z) : list Z :=
  atom "moov" (atom "udta" (atom "meta" [0; 0; 0; 0] ++ sibling)).

(** A tagged file followed by a top-level [mdat] atom of 16 payload bytes. *)
Definition withMdat : list Z :=
  tagged trkn ++ atom "mdat" (replicate 16 255).

(** The sibling of the childless [meta] is an [ilst] atom with a track
    number: [udta] starts at 8, [meta] at 16 with size 12, [ilst] at 28. *)
Definition siblingOfMeta : list Z := emptyMeta (atom "ilst" trkn).

(** [udta] holds a [meta] atom whose only child is a handler atom, then
    an [ilst] atom with a track number as the sibling of [meta]: [meta]
    starts at 16 with size 24, its child [hdlr] at 28 with size 12, and
    [ilst] at 40, where [meta] ends. *)
Definition siblingOfHandler : list Z :=
  atom "moov"
    (atom "udta"
       (atom "meta" ([0; 0; 0; 0] ++ atom "hdlr" [0; 0; 0; 0]) ++ atom "ilst" trkn)).

(** A file that ends in an atom of declared size zero. *)
Definition zeroSized : list Z :=
  atom "free" [1; 2; 3; 4] ++ [0; 0; 0; 0] ++ fourCC "free".

(** The payload of a value atom of class 1, text: the class code is the
    last of the three bytes that follow the version byte. *)
Definition textAtom (value : string) : list Z :=
  atom "data" ([0; 0; 0; 1] ++ [0; 0; 0; 0] ++ fourCC value).

(** A title and a comment. *)
Definition nam : list Z := atom (String c169 "nam") (textAtom "Song").

Definition cmt : list Z := atom (String c169 "cmt") (textAtom "hello").

(** An atom whose class code, 2, is none of those that [TYPES] lists. *)
Definition unkn : list Z :=
  atom "unkn" (atom "data" ([0; 0; 0; 2] ++ [0; 0; 0; 0] ++ [7; 0])).

(** A file as an encoder writes it: the atom [ftyp] with the brand
    "M4A ", the tags, then the media data. *)
Definition m4a : list Z :=
  atom "ftyp" (fourCC "M4A " ++ [0; 0; 0; 0])
    ++ tagged (nam ++ trkn) ++ atom "mdat" (replicate 16 255).

End Sample.

(** ** Sources with the same bytes *)

(** Two sources answer every read alike. *)
Record sameBytes (a b : MediaFileReader) : Prop := {
  same_getSize : getSize a = getSize b;
  same_getByteAt : forall offset, getByteAt a offset = getByteAt b offset;
  same_getShortAt : forall offset flag, getShortAt a offset flag = getShortAt b offset flag;
  same_getLongAt : forall offset flag, getLongAt a offset flag = getLongAt b offset flag;
  same_getInteger24At :
    forall offset flag, getInteger24At a offset flag = getInteger24At b offset flag;
  same_getStringAt :
    forall offset length, getStringAt a offset length = getStringAt b offset length;
  same_getBytesAt :
    forall offset length, getBytesAt a offset length = getBytesAt b offset length;
  same_getStringWithCharsetAt :
    forall offset length charset,
      getStringWithCharsetAt a offset length charset
      = getStringWithCharsetAt b offset length charset
}.

(** ** Measures for termination *)

(** A number read from unsigned bytes. *)
Definition unsigned (n : jsNumber) : Prop :=
  match n with
  | Num z => 0 <= z
  | NaN => True
  end.

(** The passes that are enough from [seek] when no atom lies at or after
    [bound]. *)
Definition passes (bound : Z) (seek : jsNumber) : nat :=
  match seek with
  | Num s => Z.to_nat (bound - s) + 2
  | NaN => 1
  end.

(** ** The tag identifier: [getTagIdentifierByteRange] and [canReadTagFormat] *)

Record ByteRange : Type := {
  ByteRange_offset : Z;
  ByteRange_length : Z
}.

(** Lines 22-30. *)
Definition getTagIdentifierByteRange : ByteRange :=
  {| ByteRange_offset := 0; ByteRange_length := 11 |}.

(** [array.slice(start, stop)] for [start <= stop]: the elements from
    index [start] up to, not including, index [stop], as far as the array
    has them. *)
Definition slice {A : Type} (start stop : nat) (array : list A) : list A :=
  take (stop - start) (drop start array).

(** The code unit [String.fromCharCode] makes of a number: the number
    modulo 2^16, and 0 for [NaN]. *)
Definition toUint16 (n : jsNumber) : Z :=
  match n with
  | Num z => z mod 65536
  | NaN => 0
  end.

(** [String.fromCharCode.apply(String, codes)]; a string is held as the
    list of its 16-bit code units, which is what [===] compares. *)
Definition fromCharCode (codes : list jsNumber) : list Z :=
  toUint16 <$> codes.

(** The code units of a string literal of the source. *)
Definition codeUnits (s : string) : list Z :=
  (fun c => Z.of_N (N_of_ascii c)) <$> list_ascii_of_string s.

(** Lines 32-35. *)
Definition canReadTagFormat (tagIdentifier : list jsNumber) : bool :=
  let id := fromCharCode (slice 4 11 tagIdentifier) in
  bool_decide (id = codeUnits "ftypM4A").

(** The elements of [array] that lie in a byte range. *)
Definition inRange {A : Type} (range : ByteRange) (array : list A) : list A :=
  slice (Z.to_nat (ByteRange_offset range))
        (Z.to_nat (ByteRange_offset range + ByteRange_length range)) array.

(** ** Layouts *)

(** The parent name the loader holds where the decoder holds [parent]: the
    decoder starts from [undefined], the loader from the empty string. *)
Definition pathName (parent : option string) : string :=
  default "" parent.

(** A request covers the eight header bytes at [offset]. *)
Definition coversHeader (range : Z * Z) (offset : Z) : Prop :=
  range.1 <= offset /\ offset + 7 <= range.2.

(** The source holds, from [seek] on, the value atoms [atoms] one after
    the other, each given by its name and its size. *)
Fixpoint valueAtomsAt (data : MediaFileReader) (seek : Z)
    (atoms : list (string * Z)) : Prop :=
  match atoms with
  | [] => True
  | (atomName, atomSize) :: atoms =>
      getLongAt data seek true = Num atomSize
      /\ 0 < atomSize
      /\ getStringAt data (seek + 4) 4 = atomName
      /\ _isContainerAtom atomName = false
      /\ valueAtomsAt data (seek + atomSize) atoms
  end.

(** Where the atoms that start at [seek] end. *)
Definition endOf (seek : Z) (atoms : list (string * Z)) : Z :=
  foldl (fun at_ atom => at_ + atom.2) seek atoms.

(** The readable ones among the atoms are decoded into [tag], in the
    order of the file, by the passes of one call of [_readAtom]: the
    variable [atomData] goes from each pass to the next. *)
Fixpoint storeAll (data : MediaFileReader) (tag : Tag) (atomData : value)
    (seek : Z) (atoms : list (string * Z)) : Tag :=
  match atoms with
  | [] => tag
  | (atomName, atomSize) :: atoms =>
      let locals :=
        if _canReadAtom atomName
        then readValueAtom data tag atomData seek (Num atomSize) atomName
        else (tag, atomData) in
      storeAll data locals.1 locals.2 (seek + atomSize) atoms
  end.

(** The keys under which the atoms are stored: the FourCCs of the
    readable ones, and "count" beside "trkn". *)
Definition storedKeys (atoms : list (string * Z)) : gset string :=
  list_to_set
    (flat_map (fun atom : string * Z =>
                 if String.eqb atom.1 "----" then []
                 else if String.eqb atom.1 "trkn" then ["trkn"; "count"]
                 else [atom.1]) atoms).

(** The ranges requested for the atoms while the loader holds [parent]. *)
Fixpoint requestsFor (parent : string) (seek : Z)
    (atoms : list (string * Z)) : list (Z * Z) :=
  match atoms with
  | [] => []
  | (_, atomSize) :: atoms =>
      (seek + (if String.eqb parent metadataPath then 0 else atomSize),
       seek + atomSize + 8)
        :: requestsFor parent (seek + atomSize) atoms
  end.

(** The number of dots in a path. *)
Fixpoint dots (path : string) : nat :=
  match path with
  | EmptyString => 0
  | String c path => (if Ascii.eqb c "." then 1 else 0) + dots path
  end.

(** The walk holds no path at level 0 and, deeper, a path of as many
    names as the level. *)
Definition pathAtLevel (level : nat) (parent : option string) : Prop :=
  match parent with
  | None => level = 0%nat
  | Some p => p ≠ "" /\ level = S (dots p)
  end.

(** * Properties *)

(** ** Numbers and tables *)

Lemma lt_Num (a b : Z) : Js.lt (Num a) (Num b) = bool_decide (a < b).
Proof.
  unfold Js.lt. destruct (Z.ltb_spec a b); symmetry.
  - by apply bool_decide_eq_true.
  - apply bool_decide_eq_false. lia.
Qed.

Lemma isZero_false (n : jsNumber) : n ≠ Num 0 -> Js.isZero n = false.
Proof.
  destruct n as [z|]; [|done]. intros Hz. simpl.
  apply Z.eqb_neq. congruence.
Qed.

(** The class codes that [TYPES] resolves to [uint8] are 0 and 21. *)
Lemma TYPES_uint8 (klass : jsNumber) :
  TYPES_at klass = Some "uint8" <-> klass = Num 0 \/ klass = Num 21.
Proof.
  split.
  - destruct klass as [k|]; [|done]. unfold TYPES_at, TYPES.
    intros Hk%elem_of_list_to_map_2.
    repeat (apply elem_of_cons in Hk as [Hk|Hk]; [simplify_eq; auto|]).
    by apply elem_of_nil in Hk.
  - by intros [-> | ->].
Qed.

(** ** The Value Decoder *)

Section Decoder.

Variable data : MediaFileReader.

Lemma readAtom_loop_S fuel tag atomData seek stop parent :
  readAtom_loop data (S fuel) tag atomData seek stop parent =
    match readAtom_iteration data tag atomData seek stop parent with
    | Return tag => Some tag
    | Descend tag offset length path =>
        readAtom_loop data fuel tag VUndefined offset (Js.add offset length) (Some path)
    | Next tag atomData seek => readAtom_loop data fuel tag atomData seek stop parent
    end.
Proof. reflexivity. Qed.

Lemma readAtom_visits_S fuel level tag atomData seek stop parent :
  readAtom_visits data (S fuel) level tag atomData seek stop parent =
    (match seek with
     | Num s => if Js.lt seek stop then [Visit level s parent] else []
     | NaN => []
     end ++
     match readAtom_iteration data tag atomData seek stop parent with
     | Return _ => []
     | Descend tag offset length path =>
         readAtom_visits data fuel (S level) tag VUndefined offset
           (Js.add offset length) (Some path)
     | Next tag atomData seek =>
         readAtom_visits data fuel level tag atomData seek stop parent
     end)%list.
Proof. reflexivity. Qed.

(** Past the end of its level a pass returns. *)
Lemma iteration_end tag atomData seek stop parent :
  stop <= seek ->
  readAtom_iteration data tag atomData (Num seek) (Num stop) parent = Return tag.
Proof.
  intros Hge. unfold readAtom_iteration.
  by rewrite lt_Num, bool_decide_eq_false_2 by lia.
Qed.

(** A pass over an atom of size zero returns. *)
Lemma iteration_zero tag atomData seek stop parent :
  getLongAt data seek true = Num 0 ->
  readAtom_iteration data tag atomData (Num seek) stop parent = Return tag.
Proof.
  intros Hzero. unfold readAtom_iteration.
  destruct (Js.lt (Num seek) stop); [|done]. by rewrite Hzero.
Qed.

(** A pass over a container atom hands the walk to the recursive call. *)
Lemma iteration_container tag atomData seek stop parent atomSize atomName :
  seek < stop ->
  getLongAt data seek true = atomSize ->
  atomSize ≠ Num 0 ->
  getStringAt data (seek + 4) 4 = atomName ->
  _isContainerAtom atomName = true ->
  readAtom_iteration data tag atomData (Num seek) (Num stop) parent =
    Descend tag
      (Num ((if String.eqb atomName "meta" then seek + 4 else seek) + 8))
      (Js.sub atomSize (Num 8)) (atomFullName parent atomName).
Proof.
  intros Hlt Hsize Hnz Hname Hcont. unfold readAtom_iteration.
  rewrite lt_Num, bool_decide_eq_true_2 by done.
  rewrite Hsize, (isZero_false _ Hnz), Hname, Hcont. done.
Qed.

(** A pass over a value atom decodes it when it is under the metadata
    path and readable, and moves to the next atom of the level. *)
Lemma iteration_value tag atomData seek stop parent atomSize atomName :
  seek < stop ->
  getLongAt data seek true = atomSize ->
  atomSize ≠ Num 0 ->
  getStringAt data (seek + 4) 4 = atomName ->
  _isContainerAtom atomName = false ->
  let locals :=
    if underMetadataPath parent && _canReadAtom atomName
    then readValueAtom data tag atomData seek atomSize atomName
    else (tag, atomData) in
  readAtom_iteration data tag atomData (Num seek) (Num stop) parent =
    Next locals.1 locals.2 (Js.add (Num seek) atomSize).
Proof.
  intros Hlt Hsize Hnz Hname Hcont. unfold readAtom_iteration.
  rewrite lt_Num, bool_decide_eq_true_2 by done.
  rewrite Hsize, (isZero_false _ Hnz), Hname, Hcont. done.
Qed.

(** Every header read by a walk that starts at some nesting level is
    read at that level or deeper. *)
Lemma visits_level fuel : forall level tag atomData seek stop parent,
  Forall (fun v => (level <= visit_level v)%nat)
    (readAtom_visits data fuel level tag atomData seek stop parent).
Proof.
  induction fuel as [|fuel IH]; intros level tag atomData seek stop parent; simpl.
  - constructor.
  - apply Forall_app. split.
    + destruct seek as [s|]; [|constructor].
      destruct (Js.lt (Num s) stop); repeat constructor.
    + destruct (readAtom_iteration data tag atomData seek stop parent) as [t|t o l n|t a s].
      * constructor.
      * eapply Forall_impl; [apply (IH (S level))|]. simpl. intros v Hv. lia.
      * apply IH.
Qed.

(** The headers a walk reads at its own nesting level lie below the
    bound of that level. *)
Lemma visits_below_stop fuel : forall level tag atomData seek stop parent,
  Forall (fun v => visit_level v = level -> visit_offset v < stop)
    (readAtom_visits data fuel level tag atomData seek (Num stop) parent).
Proof.
  induction fuel as [|fuel IH]; intros level tag atomData seek stop parent.
  - constructor.
  - rewrite readAtom_visits_S. apply Forall_app. split.
    + destruct seek as [s|]; [|constructor]. rewrite lt_Num.
      case_bool_decide; repeat constructor. done.
    + destruct (readAtom_iteration data tag atomData seek (Num stop) parent) as [t|t o l n|t a s].
      * constructor.
      * eapply Forall_impl; [apply (visits_level fuel (S level))|].
        simpl. intros v Hv Heq. lia.
      * apply IH.
Qed.

(** The early return of lines 147-148.  When a pass of the Value Decoder
    meets a container atom (the first one of its level, since a value atom
    only moves the walk on), it calls [_readAtom] on the children and
    returns: the outcome of the level is the outcome of that call, the
    headers read from there on are those the call reads, all of them at a
    deeper nesting level, so no further header is read at this level, and
    the bound [stop] of the level plays no part.  At its own level the
    call reads headers below [offset + length] only, which is the declared
    end of the container, and four bytes more when the container is
    [meta]; what its nested calls reach is not bounded here. *)
Lemma readAtom_returns_after_first_container
    fuel level tag atomData seek stop stop' parent atomSize atomName :
  seek < stop -> seek < stop' ->
  getLongAt data seek true = atomSize ->
  atomSize ≠ Num 0 ->
  getStringAt data (seek + 4) 4 = atomName ->
  _isContainerAtom atomName = true ->
  let offset := Num ((if String.eqb atomName "meta" then seek + 4 else seek) + 8) in
  let length := Js.sub atomSize (Num 8) in
  let path := Some (atomFullName parent atomName) in
  readAtom_loop data (S fuel) tag atomData (Num seek) (Num stop) parent
    = _readAtom data fuel tag offset length path
  /\ readAtom_visits data (S fuel) level tag atomData (Num seek) (Num stop) parent
    = Visit level seek parent
        :: readAtom_visits data fuel (S level) tag VUndefined offset
             (Js.add offset length) path
  /\ Forall (fun v => (level < visit_level v)%nat)
       (readAtom_visits data fuel (S level) tag VUndefined offset
          (Js.add offset length) path)
  /\ readAtom_loop data (S fuel) tag atomData (Num seek) (Num stop') parent
    = readAtom_loop data (S fuel) tag atomData (Num seek) (Num stop) parent
  /\ (forall size,
        atomSize = Num size ->
        Forall (fun v =>
                  visit_level v = S level ->
                  visit_offset v
                    < seek + size + (if String.eqb atomName "meta" then 4 else 0))
          (readAtom_visits data fuel (S level) tag VUndefined offset
             (Js.add offset length) path)).
Proof.
  intros Hlt Hlt' Hsize Hnz Hname Hcont offset length path.
  pose proof (iteration_container tag atomData seek stop parent atomSize atomName
                Hlt Hsize Hnz Hname Hcont) as Hstep.
  pose proof (iteration_container tag atomData seek stop' parent atomSize atomName
                Hlt' Hsize Hnz Hname Hcont) as Hstep'.
  repeat split.
  - rewrite readAtom_loop_S, Hstep. reflexivity.
  - rewrite readAtom_visits_S, Hstep, lt_Num, bool_decide_eq_true_2 by done.
    reflexivity.
  - eapply Forall_impl; [apply visits_level|]. simpl. intros v Hv. lia.
  - rewrite !readAtom_loop_S, Hstep, Hstep'. reflexivity.
  - intros size ->. unfold offset, length. cbn [Js.sub Js.add].
    eapply Forall_impl; [apply visits_below_stop|]. simpl.
    intros v Hv Hlevel. specialize (Hv Hlevel).
    destruct (String.eqb atomName "meta"); lia.
Qed.

(** Decoding a value atom stores an entry under its FourCC. *)
Lemma readValueAtom_stores tag atomData seek atomSize atomName :
  is_Some ((readValueAtom data tag atomData seek atomSize atomName).1 !! atomName).
Proof.
  unfold readValueAtom.
  destruct (String.eqb_spec atomName "trkn") as [->|Hne]; cbn [fst].
  - rewrite lookup_insert_ne by done. rewrite lookup_insert_eq. eauto.
  - destruct (String.eqb atomName (String c169 "cmt")); cbn [fst];
      rewrite lookup_insert_eq; eauto.
Qed.

(** Decoding a value atom removes no entry. *)
Lemma readValueAtom_keeps tag atomData seek atomSize atomName key :
  is_Some (tag !! key) ->
  is_Some ((readValueAtom data tag atomData seek atomSize atomName).1 !! key).
Proof.
  intros Hkey. unfold readValueAtom.
  repeat match goal with
         | |- context [if ?b then _ else _] => destruct b; cbn [fst]
         | |- context [<[?k := _]> _ !! key] =>
             destruct (decide (k = key)) as [->|];
               [rewrite lookup_insert_eq; eauto | rewrite lookup_insert_ne by done]
         end; done.
Qed.

(** A pass removes no entry, whatever it does next. *)
Lemma iteration_keeps tag atomData seek stop parent key :
  is_Some (tag !! key) ->
  is_Some (control_tag (readAtom_iteration data tag atomData seek stop parent) !! key).
Proof.
  intros Hkey. unfold readAtom_iteration.
  destruct seek as [s|]; [|done].
  destruct (Js.lt (Num s) stop); [|done].
  destruct (Js.isZero _); [done|].
  destruct (_isContainerAtom _); [done|].
  destruct (underMetadataPath parent && _canReadAtom _); [|done].
  by apply readValueAtom_keeps.
Qed.

(** An entry present during the walk is present in its outcome. *)
Lemma readAtom_loop_keeps fuel : forall tag atomData seek stop parent key result,
  readAtom_loop data fuel tag atomData seek stop parent = Some result ->
  is_Some (tag !! key) ->
  is_Some (result !! key).
Proof.
  induction fuel as [|fuel IH]; intros tag atomData seek stop parent key result; [done|].
  rewrite readAtom_loop_S. intros Hrun Hkey.
  pose proof (iteration_keeps tag atomData seek stop parent key Hkey) as Hstep.
  destruct (readAtom_iteration data tag atomData seek stop parent) as [t|t o l n|t a s];
    simpl in Hstep.
  - by simplify_eq.
  - eauto.
  - eauto.
Qed.

(** C2 (amended).  A value atom under [moov.udta.meta.ilst] whose FourCC is
    neither a container name nor a key of the tag table [ATOMS] is decoded
    like a listed one: unless the FourCC is the marker "----", the pass
    stores an entry under the raw FourCC, and the entry is in the outcome
    of the walk.  For the marker nothing is stored.  In both cases the
    pass raises nothing and moves on to the next atom of the level. *)
Theorem unlisted_value_atom_is_stored
    fuel tag atomData seek stop atomSize atomName result :
  seek < stop ->
  getLongAt data seek true = atomSize ->
  atomSize ≠ Num 0 ->
  getStringAt data (seek + 4) 4 = atomName ->
  _isContainerAtom atomName = false ->
  ATOMS !! atomName = None ->
  let locals :=
    if String.eqb atomName "----" then (tag, atomData)
    else readValueAtom data tag atomData seek atomSize atomName in
  let tag' := locals.1 in
  readAtom_iteration data tag atomData (Num seek) (Num stop) (Some metadataPath)
    = Next tag' locals.2 (Js.add (Num seek) atomSize)
  /\ (atomName ≠ "----" -> is_Some (tag' !! atomName))
  /\ (atomName ≠ "----" ->
      readAtom_loop data (S fuel) tag atomData (Num seek) (Num stop) (Some metadataPath)
        = Some result ->
      is_Some (result !! atomName)).
Proof.
  intros Hlt Hsize Hnz Hname Hcont _ locals tag'.
  pose proof (iteration_value tag atomData seek stop (Some metadataPath) atomSize
                atomName Hlt Hsize Hnz Hname Hcont) as Hstep.
  cbv zeta in Hstep.
  assert (Hlocals : (if underMetadataPath (Some metadataPath) && _canReadAtom atomName
                     then readValueAtom data tag atomData seek atomSize atomName
                     else (tag, atomData)) = locals).
  { unfold locals, _canReadAtom. simpl. by destruct (String.eqb atomName "----"). }
  rewrite Hlocals in Hstep. fold tag' in Hstep.
  assert (Hstored : atomName ≠ "----" -> is_Some (tag' !! atomName)).
  { intros Hne. unfold tag', locals. apply String.eqb_neq in Hne. rewrite Hne.
    apply readValueAtom_stores. }
  repeat split; [done|done|].
  intros Hne. rewrite readAtom_loop_S, Hstep. intros Hrun.
  eapply readAtom_loop_keeps; eauto.
Qed.

(** What the type dispatch stores for a class code that resolves to
    [uint8]. *)
Lemma readValueAtom_uint8 tag atomData seek atomSize atomName :
  atomName ≠ "trkn" ->
  TYPES_at (getInteger24At data (seek + 16 + 1) true) = Some "uint8" ->
  (readValueAtom data tag atomData seek atomSize atomName).1 !! atomName =
    Some (if String.eqb atomName (String c169 "cmt")
          then VComment (VNumber (getShortAt data (seek + 24) false))
          else VNumber (getShortAt data (seek + 24) false))
  /\ (readValueAtom data tag atomData seek atomSize atomName).2
     = VNumber (getShortAt data (seek + 24) false).
Proof.
  intros Hne Htype. unfold readValueAtom.
  apply String.eqb_neq in Hne. rewrite Hne, Htype. simpl.
  destruct (String.eqb atomName (String c169 "cmt")); cbn [fst snd];
    by rewrite lookup_insert_eq.
Qed.

(** C7.  A [trkn] atom under [moov.udta.meta.ilst] is decoded without a
    look at its class code: the pass stores the byte at header offset
    +16+11 under "trkn" and the byte at +16+13 under "count", whatever the
    source answers for the class code; when the atom ends its level the
    walk returns the mapping with these two entries, which is
    [{trkn: 5, count: 12}] when the bytes are 5 and 12 and the mapping was
    empty. *)
Theorem trkn_stores_track_and_count tag atomData seek stop atomSize :
  seek < stop ->
  getLongAt data seek true = atomSize ->
  atomSize ≠ Num 0 ->
  getStringAt data (seek + 4) 4 = "trkn" ->
  let tag' :=
    <["count" := VNumber (getByteAt data (seek + 16 + 13))]>
      (<["trkn" := VNumber (getByteAt data (seek + 16 + 11))]> tag) in
  readAtom_iteration data tag atomData (Num seek) (Num stop) (Some metadataPath)
    = Next tag' atomData (Js.add (Num seek) atomSize)
  /\ tag' !! "trkn" = Some (VNumber (getByteAt data (seek + 16 + 11)))
  /\ tag' !! "count" = Some (VNumber (getByteAt data (seek + 16 + 13)))
  /\ (forall fuel size,
        atomSize = Num size ->
        stop <= seek + size ->
        readAtom_loop data (S (S fuel)) tag atomData (Num seek) (Num stop) (Some metadataPath)
          = Some tag')
  /\ (tag = ∅ ->
      getByteAt data (seek + 16 + 11) = Num 5 ->
      getByteAt data (seek + 16 + 13) = Num 12 ->
      tag' = <["count" := VNumber (Num 12)]> (<["trkn" := VNumber (Num 5)]> ∅)).
Proof.
  intros Hlt Hsize Hnz Hname tag'.
  assert (Hstep : readAtom_iteration data tag atomData (Num seek) (Num stop)
                    (Some metadataPath)
                  = Next tag' atomData (Js.add (Num seek) atomSize)).
  { by rewrite (iteration_value tag atomData seek stop (Some metadataPath)
                  atomSize "trkn"). }
  repeat split.
  - exact Hstep.
  - unfold tag'. rewrite lookup_insert_ne by done. apply lookup_insert_eq.
  - unfold tag'. apply lookup_insert_eq.
  - intros fuel size -> Hend. rewrite readAtom_loop_S, Hstep, readAtom_loop_S.
    simpl Js.add. by rewrite iteration_end.
  - intros -> H5 H12. unfold tag'. rewrite H5, H12. reflexivity.
Qed.

(** Decoding a readable value atom stores nothing under the marker. *)
Lemma readValueAtom_no_marker tag atomData seek atomSize atomName :
  atomName ≠ "----" ->
  tag !! "----" = None ->
  (readValueAtom data tag atomData seek atomSize atomName).1 !! "----" = None.
Proof.
  intros Hne Hnone. unfold readValueAtom.
  repeat match goal with
         | |- context [if ?b then _ else _] => destruct b; cbn [fst]
         end; rewrite ?lookup_insert_ne by done; done.
Qed.

(** No pass stores anything under the marker. *)
Lemma iteration_no_marker tag atomData seek stop parent :
  tag !! "----" = None ->
  control_tag (readAtom_iteration data tag atomData seek stop parent) !! "----" = None.
Proof.
  intros Hnone. unfold readAtom_iteration.
  destruct seek as [s|]; [|done].
  destruct (Js.lt (Num s) stop); [|done].
  destruct (Js.isZero _); [done|].
  destruct (_isContainerAtom _); [done|].
  destruct (underMetadataPath parent); [|done]. simpl.
  unfold _canReadAtom.
  destruct (String.eqb_spec (getStringAt data (s + 4) 4) "----"); [done|].
  by apply readValueAtom_no_marker.
Qed.

Lemma readAtom_loop_no_marker fuel : forall tag atomData seek stop parent result,
  tag !! "----" = None ->
  readAtom_loop data fuel tag atomData seek stop parent = Some result ->
  result !! "----" = None.
Proof.
  induction fuel as [|fuel IH]; intros tag atomData seek stop parent result Hnone; [done|].
  rewrite readAtom_loop_S.
  pose proof (iteration_no_marker tag atomData seek stop parent Hnone) as Hstep.
  destruct (readAtom_iteration data tag atomData seek stop parent) as [t|t o l n|t a s];
    simpl in Hstep.
  - intros [= <-]. exact Hstep.
  - eauto.
  - eauto.
Qed.

(** C8.  A value atom with FourCC "----" leaves the mapping as it is, under
    every parent path and so under [moov.udta.meta.ilst] too; no pass over
    any atom stores under that key, so the walk never adds an entry for it
    and the mapping [_parseData] returns has none. *)
Theorem marker_atom_is_never_stored :
  (forall tag atomData seek stop parent atomSize,
     seek < stop ->
     getLongAt data seek true = atomSize ->
     atomSize ≠ Num 0 ->
     getStringAt data (seek + 4) 4 = "----" ->
     readAtom_iteration data tag atomData (Num seek) (Num stop) parent
       = Next tag atomData (Js.add (Num seek) atomSize))
  /\ (forall tag atomData seek stop parent,
        tag !! "----" = None ->
        control_tag (readAtom_iteration data tag atomData seek stop parent) !! "----" = None)
  /\ (forall fuel tag atomData seek stop parent result,
        tag !! "----" = None ->
        readAtom_loop data fuel tag atomData seek stop parent = Some result ->
        result !! "----" = None)
  /\ (forall fuel tags result,
        _parseData data fuel tags = Some result -> result !! "----" = None).
Proof.
  repeat split.
  - intros tag atomData seek stop parent atomSize Hlt Hsize Hnz Hname.
    rewrite (iteration_value tag atomData seek stop parent atomSize "----") by done.
    unfold _canReadAtom. simpl. by rewrite andb_false_r.
  - apply iteration_no_marker.
  - intros fuel. apply readAtom_loop_no_marker.
  - intros fuel tags result. unfold _parseData, _readAtom.
    apply readAtom_loop_no_marker. apply lookup_empty.
Qed.

(** A path that ends in [meta] is not the metadata path. *)
Lemma meta_is_off_the_metadata_path parent :
  underMetadataPath (Some (atomFullName parent "meta")) = false.
Proof.
  assert (Hmeta : forall p, p +:+ ".meta" ≠ metadataPath).
  { intros p Heq.
    pose proof (append_correct2 p ".meta" 2) as He.
    pose proof (append_correct2 p ".meta" 5) as Hend.
    rewrite Heq in He, Hend.
    destruct (String.length p) as [|n]; [discriminate|].
    do 20 (destruct n as [|n]; [discriminate|]).
    discriminate. }
  unfold underMetadataPath, atomFullName. apply String.eqb_neq.
  destruct parent as [p|]; [|done].
  destruct (String.eqb p ""); [done|]. apply Hmeta.
Qed.

Lemma valueAtomsAt_end atoms : forall seek,
  valueAtomsAt data seek atoms -> seek <= endOf seek atoms.
Proof.
  induction atoms as [|[atomName atomSize] atoms IH]; intros seek; [by unfold endOf|].
  intros (_ & Hpos & _ & _ & Hrest). apply IH in Hrest.
  unfold endOf in *. simpl. lia.
Qed.

(** Off the metadata path a pass over a value atom changes nothing and
    moves on. *)
Lemma iteration_skips tag atomData seek stop parent atomName atomSize :
  seek < stop ->
  getLongAt data seek true = Num atomSize ->
  0 < atomSize ->
  getStringAt data (seek + 4) 4 = atomName ->
  _isContainerAtom atomName = false ->
  underMetadataPath parent = false ->
  readAtom_iteration data tag atomData (Num seek) (Num stop) parent
    = Next tag atomData (Num (seek + atomSize)).
Proof.
  intros Hlt Hsize Hpos Hname Hvalue Hoff.
  rewrite (iteration_value tag atomData seek stop parent (Num atomSize) atomName);
    [|done|done|intros [= ?]; lia|done|done].
  by rewrite Hoff.
Qed.

(** Off the metadata path the walk of a level goes over a run of value
    atoms that ends at or before the bound of the level, one pass per
    atom, and goes on behind the run with the mapping as it was. *)
Lemma readAtom_loop_skips atoms : forall fuel tag atomData seek stop parent,
  valueAtomsAt data seek atoms ->
  endOf seek atoms <= stop ->
  underMetadataPath parent = false ->
  readAtom_loop data (length atoms + fuel) tag atomData (Num seek) (Num stop) parent
  = readAtom_loop data fuel tag atomData (Num (endOf seek atoms)) (Num stop) parent.
Proof.
  induction atoms as [|[atomName atomSize] atoms IH];
    intros fuel tag atomData seek stop parent; [done|].
  intros (Hsize & Hpos & Hname & Hvalue & Hrest) Hend Hoff.
  pose proof (valueAtomsAt_end _ _ Hrest) as Hge.
  change (endOf seek ((atomName, atomSize) :: atoms))
    with (endOf (seek + atomSize) atoms) in *.
  cbn [length Nat.add]. rewrite readAtom_loop_S.
  rewrite (iteration_skips tag atomData seek stop parent atomName atomSize)
    by (done || lia).
  by apply IH.
Qed.

(** The headers read behind such a run are headers the walk reads. *)
Lemma readAtom_visits_skips atoms :
  forall fuel level tag atomData seek stop parent v,
    valueAtomsAt data seek atoms ->
    endOf seek atoms <= stop ->
    underMetadataPath parent = false ->
    v ∈ readAtom_visits data fuel level tag atomData
          (Num (endOf seek atoms)) (Num stop) parent ->
    v ∈ readAtom_visits data (length atoms + fuel) level tag atomData
          (Num seek) (Num stop) parent.
Proof.
  induction atoms as [|[atomName atomSize] atoms IH];
    intros fuel level tag atomData seek stop parent v; [done|].
  intros (Hsize & Hpos & Hname & Hvalue & Hrest) Hend Hoff Hin.
  pose proof (valueAtomsAt_end _ _ Hrest) as Hge.
  change (endOf seek ((atomName, atomSize) :: atoms))
    with (endOf (seek + atomSize) atoms) in *.
  cbn [length Nat.add]. rewrite readAtom_visits_S.
  rewrite (iteration_skips tag atomData seek stop parent atomName atomSize)
    by (done || lia).
  apply elem_of_app. right. by apply IH.
Qed.

(** C9.  A pass of the Value Decoder over a [meta] atom at [p] of declared
    size [s] starts the walk of the children at [p + 12] with length
    [s - 8], so with the bound [p + s + 4], four bytes past the declared
    end [p + s].  When value atoms [atoms] follow one another from
    [p + 12] up to an offset [q] below that bound, and so also when [q]
    lies in the four bytes from [p + s] on, the walk goes over them and
    then reads the header at [q] at the level of the children of [meta]
    and processes it as a child of [meta]: the outcome of the walk from
    [p] is the outcome of the walk of the children from [q] on, which
    descends under the path of [meta] extended by the name at [q] when
    that is a container, goes on behind the atom when it is a value atom,
    and returns when its size is zero.  So when [meta] lies under
    [moov.udta] and the atom at [q] is an [ilst] atom that holds a [trkn]
    atom, the track number and the count are in the mapping that the walk
    from [p] returns.  No header is read at that level at or past
    [p + s + 4], where the walk of the children returns. *)
Theorem meta_children_walk_overruns_by_four
    fuel level tag atomData p stop parent s atoms :
  p < stop ->
  getLongAt data p true = Num s ->
  s ≠ 0 ->
  getStringAt data (p + 4) 4 = "meta" ->
  valueAtomsAt data (p + 12) atoms ->
  let path := Some (atomFullName parent "meta") in
  let q := endOf (p + 12) atoms in
  let passes := S (length atoms) in
  readAtom_iteration data tag atomData (Num p) (Num stop) parent
    = Descend tag (Num (p + 12)) (Num (s - 8)) (atomFullName parent "meta")
  /\ Js.add (Num (p + 12)) (Num (s - 8)) = Num (p + s + 4)
  /\ (q < p + s + 4 ->
      readAtom_loop data (passes + fuel) tag atomData (Num p) (Num stop) parent
        = readAtom_loop data fuel tag VUndefined (Num q) (Num (p + s + 4)) path
      /\ Visit (S level) q path
           ∈ readAtom_visits data (passes + S fuel) level tag atomData
               (Num p) (Num stop) parent
      /\ (forall size name,
            getLongAt data q true = size ->
            size ≠ Num 0 ->
            getStringAt data (q + 4) 4 = name ->
            _isContainerAtom name = true ->
            readAtom_loop data (passes + S fuel) tag atomData (Num p) (Num stop) parent
              = _readAtom data fuel tag
                  (Num ((if String.eqb name "meta" then q + 4 else q) + 8))
                  (Js.sub size (Num 8)) (Some (atomFullName path name)))
      /\ (forall size name,
            getLongAt data q true = size ->
            size ≠ Num 0 ->
            getStringAt data (q + 4) 4 = name ->
            _isContainerAtom name = false ->
            readAtom_loop data (passes + S fuel) tag atomData (Num p) (Num stop) parent
              = readAtom_loop data fuel tag VUndefined
                  (Js.add (Num q) size) (Num (p + s + 4)) path)
      /\ (getLongAt data q true = Num 0 ->
          readAtom_loop data (passes + S fuel) tag atomData (Num p) (Num stop) parent
            = Some tag)
      /\ (forall size size',
            atomFullName path "ilst" = metadataPath ->
            getLongAt data q true = Num size ->
            getStringAt data (q + 4) 4 = "ilst" ->
            getLongAt data (q + 8) true = Num size' ->
            getStringAt data (q + 8 + 4) 4 = "trkn" ->
            8 < size <= 8 + size' ->
            readAtom_loop data (passes + S (S (S fuel))) tag atomData
              (Num p) (Num stop) parent
            = Some (<["count" := VNumber (getByteAt data (q + 8 + 16 + 13))]>
                      (<["trkn" := VNumber (getByteAt data (q + 8 + 16 + 11))]> tag))))
  /\ (forall v,
        v ∈ readAtom_visits data fuel level tag atomData (Num p) (Num stop) parent ->
        visit_level v = S level ->
        visit_offset v < p + s + 4)
  /\ (forall q' tag' atomData',
        p + s + 4 <= q' ->
        readAtom_loop data (S fuel) tag' atomData' (Num q') (Num (p + s + 4)) path
          = Some tag').
Proof.
  intros Hlt Hsize Hnz Hname Hatoms path q passes.
  assert (Hstep : readAtom_iteration data tag atomData (Num p) (Num stop) parent
                  = Descend tag (Num (p + 12)) (Num (s - 8))
                      (atomFullName parent "meta")).
  { rewrite (iteration_container tag atomData p stop parent (Num s) "meta");
      try done; [|congruence].
    simpl. do 2 f_equal. lia. }
  assert (Hbound : Js.add (Num (p + 12)) (Num (s - 8)) = Num (p + s + 4)).
  { simpl. f_equal. lia. }
  pose proof (meta_is_off_the_metadata_path parent) as Hoff. fold path in Hoff.
  assert (Hreach : forall fuel',
            q < p + s + 4 ->
            readAtom_loop data (passes + fuel') tag atomData (Num p) (Num stop) parent
            = readAtom_loop data fuel' tag VUndefined (Num q) (Num (p + s + 4)) path).
  { intros fuel' Hq. unfold passes. cbn [Nat.add].
    rewrite readAtom_loop_S, Hstep, Hbound.
    apply readAtom_loop_skips; [done|fold q; lia|done]. }
  split; [exact Hstep|]. split; [exact Hbound|]. split; [|split].
  - intros Hq. split; [by apply Hreach|]. split; [|split; [|split; [|split]]].
    + unfold passes. cbn [Nat.add].
      rewrite readAtom_visits_S, Hstep, Hbound.
      apply elem_of_app. right.
      apply readAtom_visits_skips; [done|fold q; lia|done|]. fold q.
      rewrite readAtom_visits_S, lt_Num, bool_decide_eq_true_2 by done.
      apply elem_of_app. left. apply list_elem_of_here.
    + intros size name Hq_size Hq_nz Hq_name Hq_cont.
      rewrite (Hreach (S fuel) Hq), readAtom_loop_S.
      by rewrite (iteration_container tag VUndefined q (p + s + 4) path size name).
    + intros size name Hq_size Hq_nz Hq_name Hq_value.
      rewrite (Hreach (S fuel) Hq), readAtom_loop_S.
      rewrite (iteration_value tag VUndefined q (p + s + 4) path size name) by done.
      cbv zeta. by rewrite Hoff.
    + intros Hzero.
      by rewrite (Hreach (S fuel) Hq), readAtom_loop_S, iteration_zero.
    + intros size size' Hpath Hq_size Hq_name Hitem_size Hitem_name Hsizes.
      rewrite (Hreach (S (S (S fuel))) Hq), readAtom_loop_S.
      rewrite (iteration_container tag VUndefined q (p + s + 4) path (Num size) "ilst");
        [|done|done|intros [= ?]; lia|done|done].
      change (String.eqb "ilst" "meta") with false. cbv iota.
      rewrite Hpath. cbn [Js.sub Js.add].
      rewrite readAtom_loop_S.
      rewrite (iteration_value tag VUndefined (q + 8) (q + 8 + (size - 8))
                 (Some metadataPath) (Num size') "trkn");
        [|lia|done|intros [= ?]; lia|done|done].
      cbv zeta.
      change (underMetadataPath (Some metadataPath) && _canReadAtom "trkn") with true.
      cbv iota. unfold readValueAtom.
      change (String.eqb "trkn" "trkn") with true. cbn [fst snd Js.add].
      by rewrite readAtom_loop_S, iteration_end by lia.
  - intros v. destruct fuel as [|fuel']; [by intros ?%elem_of_nil|].
    rewrite readAtom_visits_S, Hstep, Hbound, lt_Num, bool_decide_eq_true_2 by done.
    intros [->%list_elem_of_singleton|Hin]%elem_of_app; [simpl; lia|].
    pose proof (visits_below_stop fuel' (S level) tag VUndefined (Num (p + 12))
                  (p + s + 4) path) as Hbelow.
    rewrite Forall_forall in Hbelow. by apply Hbelow.
  - intros q' tag' atomData' Hq'. by rewrite readAtom_loop_S, iteration_end.
Qed.

(** More passes do not change an outcome that was reached. *)
Lemma readAtom_loop_more_fuel fuel : forall fuel' tag atomData seek stop parent result,
  readAtom_loop data fuel tag atomData seek stop parent = Some result ->
  (fuel <= fuel')%nat ->
  readAtom_loop data fuel' tag atomData seek stop parent = Some result.
Proof.
  induction fuel as [|fuel IH]; intros fuel' tag atomData seek stop parent result; [done|].
  intros Hrun Hle. destruct fuel' as [|fuel']; [lia|].
  rewrite readAtom_loop_S in *.
  destruct (readAtom_iteration data tag atomData seek stop parent); [done| |];
    apply IH; (done || lia).
Qed.

End Decoder.

(** C4 (amended).  For a value atom under [moov.udta.meta.ilst], other than
    [trkn] and the marker "----", whose class code [TYPES] resolves to
    [uint8] (the codes 0 and 21), the pass stores under the FourCC the
    16-bit number read at header offset +24 with the big-endian flag off
    (inside [{text: ...}] for the comment atom); over an array of bytes
    that number is little-endian: the byte at +24 plus 256 times the byte
    at +25. *)
Theorem uint8_is_read_little_endian
    data tag atomData seek stop atomSize atomName :
  seek < stop ->
  getLongAt data seek true = atomSize ->
  atomSize ≠ Num 0 ->
  getStringAt data (seek + 4) 4 = atomName ->
  _isContainerAtom atomName = false ->
  atomName ≠ "----" ->
  atomName ≠ "trkn" ->
  TYPES_at (getInteger24At data (seek + 16 + 1) true) = Some "uint8" ->
  (exists tag',
     readAtom_iteration data tag atomData (Num seek) (Num stop) (Some metadataPath)
       = Next tag' (VNumber (getShortAt data (seek + 24) false))
           (Js.add (Num seek) atomSize)
     /\ tag' !! atomName =
         Some (if String.eqb atomName (String c169 "cmt")
               then VComment (VNumber (getShortAt data (seek + 24) false))
               else VNumber (getShortAt data (seek + 24) false)))
  /\ (forall bytes offset b0 b1,
        0 <= offset ->
        bytes !! Z.to_nat offset = Some b0 ->
        bytes !! Z.to_nat (offset + 1) = Some b1 ->
        getShortAt (ArrayFileReader.make bytes) offset false = Num (b0 + 256 * b1))
  /\ (forall klass,
        TYPES_at klass = Some "uint8" <-> klass = Num 0 \/ klass = Num 21).
Proof.
  intros Hlt Hsize Hnz Hname Hcont Hreadable Htrkn Htype.
  split; [|split; [|apply TYPES_uint8]].
  - destruct (readValueAtom_uint8 data tag atomData seek atomSize atomName Htrkn Htype)
      as [Hstored Hkept].
    exists (readValueAtom data tag atomData seek atomSize atomName).1. split.
    + rewrite (iteration_value data tag atomData seek stop (Some metadataPath)
                 atomSize atomName) by done.
      unfold _canReadAtom. apply String.eqb_neq in Hreadable. rewrite Hreadable.
      change (underMetadataPath (Some metadataPath)) with true.
      cbn [negb andb]. by rewrite Hkept.
    + exact Hstored.
  - intros bytes offset b0 b1 Hpos H0 H1.
    change (getShortAt (ArrayFileReader.make bytes) offset false)
      with (ArrayFileReader.join
              [ArrayFileReader.byteAt bytes (Z.of_nat 1 + offset);
               ArrayFileReader.byteAt bytes (Z.of_nat 0 + offset)]).
    replace (Z.of_nat 1 + offset) with (offset + 1) by lia.
    replace (Z.of_nat 0 + offset) with offset by lia.
    unfold ArrayFileReader.byteAt.
    rewrite !bool_decide_eq_true_2 by lia.
    rewrite H0, H1. unfold ArrayFileReader.join. cbn [foldl].
    f_equal. lia.
Qed.

(** ** The decode pass returns *)

Section DecoderReturns.

Variable data : MediaFileReader.
Variable bound : Z.

(** Sizes are never negative, as the 32-bit read is unsigned. *)
Hypothesis sizes_unsigned :
  forall offset, unsigned (getLongAt data offset true).

(** From [bound] on no size can be read, or it is zero. *)
Hypothesis nothing_after_bound :
  forall offset,
    bound <= offset ->
    getLongAt data offset true = NaN \/ getLongAt data offset true = Num 0.

(** The walk returns: every pass moves forward, and at [bound] it stops. *)
Lemma readAtom_loop_returns fuel : forall tag atomData seek stop parent,
  (passes bound seek <= fuel)%nat ->
  is_Some (readAtom_loop data fuel tag atomData seek stop parent).
Proof.
  induction fuel as [|fuel IH]; intros tag atomData seek stop parent Hfuel.
  { destruct seek; simpl in Hfuel; lia. }
  rewrite readAtom_loop_S. unfold readAtom_iteration.
  destruct seek as [s|]; [|by eexists].
  destruct (Js.lt (Num s) stop); [|by eexists].
  pose proof (sizes_unsigned s) as Hunsigned.
  destruct (getLongAt data s true) as [size|] eqn:Hsize.
  - (* a size was read *)
    destruct (Js.isZero (Num size)) eqn:Hzero; [by eexists|].
    assert (0 < size).
    { simpl in Hunsigned, Hzero. apply Z.eqb_neq in Hzero. lia. }
    assert (s < bound).
    { destruct (Z.lt_ge_cases s bound) as [|Hge]; [done|].
      destruct (nothing_after_bound s Hge) as [Hnan|Hz]; [congruence|].
      rewrite Hsize in Hz. injection Hz as Hz. lia. }
    simpl in Hfuel.
    destruct (_isContainerAtom _).
    + apply IH. simpl. destruct (String.eqb _ "meta"); lia.
    + apply IH. simpl. lia.
  - (* the size is not a number: one more pass ends the walk *)
    simpl in Hfuel. destruct fuel as [|fuel]; [lia|].
    cbn [Js.isZero Js.sub Js.add].
    destruct (_isContainerAtom _); rewrite readAtom_loop_S; by eexists.
Qed.

(** The decode pass returns a mapping, and more passes return the same. *)
Lemma parseData_returns tags :
  0 <= bound ->
  exists result,
    forall fuel,
      (Z.to_nat bound + 2 <= fuel)%nat ->
      _parseData data fuel tags = Some result.
Proof.
  intros Hbound.
  destruct (readAtom_loop_returns (Z.to_nat bound + 2) ∅ VUndefined (Num 0)
              (Js.add (Num 0) (Num (getSize data))) None) as [result Hrun].
  { simpl. lia. }
  exists result. intros fuel Hfuel. unfold _parseData, _readAtom.
  by apply (readAtom_loop_more_fuel data (Z.to_nat bound + 2)).
Qed.

End DecoderReturns.

(** ** The decode pass and its arguments *)

Lemma readValueAtom_sameBytes a b tag atomData seek atomSize atomName :
  sameBytes a b ->
  readValueAtom a tag atomData seek atomSize atomName
  = readValueAtom b tag atomData seek atomSize atomName.
Proof.
  intros [_ Hbyte Hshort _ H24 _ Hbytes Htext]. unfold readValueAtom.
  by rewrite !Hbyte, Hshort, H24, Hbytes, Htext.
Qed.

Lemma readAtom_iteration_sameBytes a b tag atomData seek stop parent :
  sameBytes a b ->
  readAtom_iteration a tag atomData seek stop parent
  = readAtom_iteration b tag atomData seek stop parent.
Proof.
  intros Hsame. unfold readAtom_iteration.
  destruct seek as [s|]; [|done].
  rewrite (same_getLongAt a b Hsame), (same_getStringAt a b Hsame).
  by rewrite (readValueAtom_sameBytes a b).
Qed.

Lemma readAtom_loop_sameBytes a b fuel : forall tag atomData seek stop parent,
  sameBytes a b ->
  readAtom_loop a fuel tag atomData seek stop parent
  = readAtom_loop b fuel tag atomData seek stop parent.
Proof.
  induction fuel as [|fuel IH]; intros tag atomData seek stop parent Hsame; [done|].
  cbn [readAtom_loop]. rewrite (readAtom_iteration_sameBytes a b) by done.
  destruct (readAtom_iteration b tag atomData seek stop parent); auto.
Qed.

(** C10.  [_parseData] never looks at its second argument, the list of
    requested fields: for every source and every two values of that
    argument, absent or not, the outcome is the same; it is the same even
    across two sources, as long as they answer every read alike. *)
Theorem parseData_ignores_requested_fields :
  (forall data fuel tags1 tags2,
     _parseData data fuel tags1 = _parseData data fuel tags2)
  /\ (forall a b fuel tags1 tags2,
        sameBytes a b ->
        _parseData a fuel tags1 = _parseData b fuel tags2).
Proof.
  assert (Hsame : forall a b fuel tags1 tags2,
            sameBytes a b -> _parseData a fuel tags1 = _parseData b fuel tags2).
  { intros a b fuel tags1 tags2 Hsame. unfold _parseData, _readAtom.
    rewrite (same_getSize a b Hsame). by apply readAtom_loop_sameBytes. }
  split; [|exact Hsame].
  intros data fuel tags1 tags2. apply Hsame. by constructor.
Qed.

(** ** The Tree Loader *)

Section Loader.

Variable mediaFileReader : MediaFileReader.

Lemma loadAtom_unfold answers offset parent :
  _loadAtom mediaFileReader answers offset parent =
    match loadAtom_call mediaFileReader offset parent with
    | CallOnSuccess => ([], Some onSuccess)
    | LoadRange range offset parent =>
        match answers with
        | [] => ([range], None)
        | true :: answers =>
            (range :: (_loadAtom mediaFileReader answers offset parent).1,
             (_loadAtom mediaFileReader answers offset parent).2)
        | false :: _ => ([range], Some onError)
        end
    end.
Proof. by destruct answers. Qed.

(** C5.  For a [meta] atom at offset [p] the Tree Loader requests the range
    that begins at [p + 4 + 8], past the header and the four bytes of
    [next_item_id], and not at [p + 8]; when the request succeeds the next
    call of [_loadAtom] is made at offset [p + 12] with the path extended
    by "meta", and when it fails the error callback ends the chain. *)
Theorem meta_children_are_requested_past_next_item_id answers p parent s :
  p < getSize mediaFileReader ->
  getLongAt mediaFileReader p true = Num s ->
  s ≠ 0 ->
  getStringAt mediaFileReader (p + 4) 4 = "meta" ->
  let path := atomFullName (Some parent) "meta" in
  let range := (p + 4 + 8, p + 4 + 8 + 8) in
  loadAtom_call mediaFileReader p parent = LoadRange range (p + 12) path
  /\ range ≠ (p + 8, p + 8 + 8)
  /\ _loadAtom mediaFileReader [] p parent = ([range], None)
  /\ _loadAtom mediaFileReader (true :: answers) p parent
     = (range :: (_loadAtom mediaFileReader answers (p + 12) path).1,
        (_loadAtom mediaFileReader answers (p + 12) path).2)
  /\ _loadAtom mediaFileReader (false :: answers) p parent = ([range], Some onError).
Proof.
  intros Hin Hsize Hnz Hname path range.
  assert (Hcall : loadAtom_call mediaFileReader p parent = LoadRange range (p + 12) path).
  { unfold loadAtom_call.
    rewrite bool_decide_eq_false_2 by lia.
    rewrite Hsize, (proj2 (Z.eqb_neq s 0) Hnz), Hname.
    change (_isContainerAtom "meta") with true.
    change (String.eqb "meta" "meta") with true. cbv iota zeta.
    unfold range. replace (p + 4 + 8) with (p + 12) by lia. reflexivity. }
  repeat split.
  - exact Hcall.
  - unfold range. intros [= Heq]. lia.
  - by rewrite loadAtom_unfold, Hcall.
  - by rewrite loadAtom_unfold, Hcall.
  - by rewrite loadAtom_unfold, Hcall.
Qed.

(** C6.  When [_loadAtom] is called at or beyond the size of the source,
    or reads a size that is zero or [NaN], it calls the success callback
    and requests nothing more, so the error callback is not called; when a
    pass of [_readAtom] reads a size of zero the walk returns the mapping
    it holds and reads no further header. *)
Theorem zero_size_or_end_of_source_stops_silently :
  (forall answers offset parent,
     getSize mediaFileReader <= offset
     \/ getLongAt mediaFileReader offset true = Num 0
     \/ getLongAt mediaFileReader offset true = NaN ->
     loadAtom_call mediaFileReader offset parent = CallOnSuccess
     /\ _loadAtom mediaFileReader answers offset parent = ([], Some onSuccess))
  /\ (forall fuel level tag atomData seek stop parent,
        getLongAt mediaFileReader seek true = Num 0 ->
        readAtom_iteration mediaFileReader tag atomData (Num seek) stop parent = Return tag
        /\ readAtom_loop mediaFileReader (S fuel) tag atomData (Num seek) stop parent = Some tag
        /\ forall v,
             v ∈ readAtom_visits mediaFileReader (S fuel) level tag atomData
                   (Num seek) stop parent ->
             v = Visit level seek parent).
Proof.
  split.
  - intros answers offset parent Hstop.
    assert (Hcall : loadAtom_call mediaFileReader offset parent = CallOnSuccess).
    { unfold loadAtom_call. case_bool_decide; [done|].
      destruct Hstop as [Hend|[-> | ->]]; [lia|done|done]. }
    split; [exact Hcall|]. by rewrite loadAtom_unfold, Hcall.
  - intros fuel level tag atomData seek stop parent Hzero.
    pose proof (iteration_zero mediaFileReader tag atomData seek stop parent Hzero) as Hstep.
    repeat split.
    + exact Hstep.
    + by rewrite readAtom_loop_S, Hstep.
    + intros v. rewrite readAtom_visits_S, Hstep, app_nil_r.
      destruct (Js.lt (Num seek) stop).
      * by intros ->%list_elem_of_singleton.
      * by intros ?%elem_of_nil.
Qed.

(** While the loader holds another path than the metadata path, a value
    atom costs one request, which begins at the end of the atom. *)
Lemma value_atom_off_the_path_is_skipped offset parent size :
  offset < getSize mediaFileReader ->
  getLongAt mediaFileReader offset true = Num size ->
  size ≠ 0 ->
  _isContainerAtom (getStringAt mediaFileReader (offset + 4) 4) = false ->
  parent ≠ metadataPath ->
  loadAtom_call mediaFileReader offset parent
    = LoadRange (offset + size, offset + size + 8) (offset + size) parent.
Proof.
  intros Hin Hsize Hnz Hvalue Hpath. unfold loadAtom_call.
  rewrite bool_decide_eq_false_2 by lia.
  rewrite Hsize, (proj2 (Z.eqb_neq size 0) Hnz), Hvalue.
  by rewrite (proj2 (String.eqb_neq parent metadataPath) Hpath).
Qed.

(** While the loader holds the metadata path, the request for a value
    atom begins at the atom itself, wherever the atom lies. *)
Lemma value_atom_on_the_path_is_fetched offset size :
  offset < getSize mediaFileReader ->
  getLongAt mediaFileReader offset true = Num size ->
  size ≠ 0 ->
  _isContainerAtom (getStringAt mediaFileReader (offset + 4) 4) = false ->
  loadAtom_call mediaFileReader offset metadataPath
    = LoadRange (offset, offset + size + 8) (offset + size) metadataPath.
Proof.
  intros Hin Hsize Hnz Hvalue. unfold loadAtom_call.
  rewrite bool_decide_eq_false_2 by lia.
  rewrite Hsize, (proj2 (Z.eqb_neq size 0) Hnz), Hvalue.
  change (String.eqb metadataPath metadataPath) with true. cbv iota.
  by rewrite Z.add_0_r.
Qed.

(** The path the loader holds is handed on as it is or extended by the
    name of a container: no call shortens it, also not at the end of a
    container. *)
Lemma loader_path_is_never_shortened offset parent range offset' parent' :
  loadAtom_call mediaFileReader offset parent = LoadRange range offset' parent' ->
  parent' = parent
  \/ parent' = atomFullName (Some parent) (getStringAt mediaFileReader (offset + 4) 4).
Proof.
  unfold loadAtom_call. case_bool_decide; [done|].
  destruct (getLongAt mediaFileReader offset true) as [size|]; [|done].
  destruct (size =? 0); [done|].
  destruct (_isContainerAtom _); intros [= _ _ <-]; auto.
Qed.

(** A call of [_loadAtom] that requests a range is made inside the source
    and, sizes being unsigned, hands a larger offset on. *)
Lemma loadAtom_call_moves_on offset parent range offset' parent' :
  (forall o, unsigned (getLongAt mediaFileReader o true)) ->
  loadAtom_call mediaFileReader offset parent = LoadRange range offset' parent' ->
  offset < getSize mediaFileReader /\ offset < offset'.
Proof.
  intros Hunsigned. unfold loadAtom_call. case_bool_decide as Hend; [done|].
  pose proof (Hunsigned offset) as Hsize.
  destruct (getLongAt mediaFileReader offset true) as [size|]; [|done].
  destruct (Z.eqb_spec size 0); [done|]. simpl in Hsize.
  destruct (_isContainerAtom _); intros [= _ <- _].
  - destruct (String.eqb _ "meta"); lia.
  - lia.
Qed.

(** Every request covers the eight bytes of the header that the next call
    reads, so a call reads its header from a range that was requested. *)
Lemma next_header_is_requested offset parent lo hi offset' parent' :
  (forall o, unsigned (getLongAt mediaFileReader o true)) ->
  loadAtom_call mediaFileReader offset parent = LoadRange (lo, hi) offset' parent' ->
  lo <= offset' /\ offset' + 7 <= hi.
Proof.
  intros Hunsigned. unfold loadAtom_call. case_bool_decide as Hend; [done|].
  pose proof (Hunsigned offset) as Hsize.
  destruct (getLongAt mediaFileReader offset true) as [size|]; [|done].
  destruct (Z.eqb_spec size 0); [done|]. simpl in Hsize.
  destruct (_isContainerAtom _); intros [= <- <- <- _]; [lia|].
  destruct (String.eqb parent metadataPath); lia.
Qed.

(** The chain of requests ends: with one answer per byte left in the
    source the loader reaches one of the two callbacks, and it is the
    success callback when every request succeeds. *)
Lemma loadAtom_ends answers : forall offset parent,
  (forall o, unsigned (getLongAt mediaFileReader o true)) ->
  (Z.to_nat (getSize mediaFileReader - offset) <= length answers)%nat ->
  is_Some (_loadAtom mediaFileReader answers offset parent).2
  /\ (Forall (fun answer => answer = true) answers ->
      (_loadAtom mediaFileReader answers offset parent).2 = Some onSuccess).
Proof.
  induction answers as [|answer answers IH]; intros offset parent Hunsigned Hlen;
    rewrite loadAtom_unfold;
    destruct (loadAtom_call mediaFileReader offset parent)
      as [|range offset' parent'] eqn:Hcall;
    try (split; [by eexists|done]).
  - apply loadAtom_call_moves_on in Hcall; [|done]. simpl in Hlen. lia.
  - apply loadAtom_call_moves_on in Hcall; [|done]. simpl in Hlen.
    destruct answer; simpl.
    + destruct (IH offset' parent') as [Hsome Hall]; [done|lia|].
      split; [done|]. intros Htrue. apply Hall. by inversion Htrue.
    + split; [by eexists|]. intros Htrue. by inversion Htrue.
Qed.

End Loader.

(** ** The array source *)

Section ArraySource.

Variable bytes : list Z.
Hypothesis bytes_unsigned : Forall (fun b => 0 <= b) bytes.

Lemma byteAt_unsigned offset : unsigned (ArrayFileReader.byteAt bytes offset).
Proof.
  unfold ArrayFileReader.byteAt. case_bool_decide; [|done].
  destruct (bytes !! Z.to_nat offset) as [b|] eqn:Hb; [|done].
  simpl. by eapply (Forall_lookup_1 _ bytes).
Qed.

Lemma byteAt_outside offset :
  Z.of_nat (length bytes) <= offset -> ArrayFileReader.byteAt bytes offset = NaN.
Proof.
  intros Hout. unfold ArrayFileReader.byteAt. case_bool_decide; [|done].
  rewrite lookup_ge_None_2; [done|lia].
Qed.

Lemma join_unsigned digits :
  Forall unsigned digits -> unsigned (ArrayFileReader.join digits).
Proof.
  unfold ArrayFileReader.join.
  assert (Hgen : forall acc, unsigned acc -> Forall unsigned digits ->
            unsigned (foldl (fun acc d =>
                               match acc, d with
                               | Num a, Num b => Num (256 * a + b)
                               | _, _ => NaN
                               end) acc digits)).
  { induction digits as [|d digits IH]; intros acc Hacc Hall; [done|].
    inversion Hall as [|? ? Hd Hrest]; subst. simpl. apply IH; [|done].
    destruct acc as [a|], d as [b|]; simpl in *; lia || done. }
  intros Hall. apply Hgen; [simpl; lia|done].
Qed.

Lemma array_sizes_unsigned offset :
  unsigned (getLongAt (ArrayFileReader.make bytes) offset true).
Proof.
  apply join_unsigned, Forall_rev, Forall_fmap, Forall_forall.
  intros o _. apply byteAt_unsigned.
Qed.

Lemma array_nothing_after offset :
  Z.of_nat (length bytes) <= offset ->
  getLongAt (ArrayFileReader.make bytes) offset true = NaN
  \/ getLongAt (ArrayFileReader.make bytes) offset true = Num 0.
Proof.
  intros Hout. left.
  change (getLongAt (ArrayFileReader.make bytes) offset true)
    with (ArrayFileReader.join
            [ArrayFileReader.byteAt bytes (Z.of_nat 3 + offset);
             ArrayFileReader.byteAt bytes (Z.of_nat 2 + offset);
             ArrayFileReader.byteAt bytes (Z.of_nat 1 + offset);
             ArrayFileReader.byteAt bytes (Z.of_nat 0 + offset)]).
  rewrite !byteAt_outside by lia. reflexivity.
Qed.

(** Over an array of unsigned bytes the decode pass returns a mapping
    within as many passes as the array has bytes, and two more. *)
Lemma array_parseData_returns tags :
  exists result,
    forall fuel,
      (length bytes + 2 <= fuel)%nat ->
      _parseData (ArrayFileReader.make bytes) fuel tags = Some result.
Proof.
  destruct (parseData_returns (ArrayFileReader.make bytes)
              (Z.of_nat (length bytes)) array_sizes_unsigned
              array_nothing_after tags) as [result Hresult]; [lia|].
  exists result. intros fuel Hfuel. apply Hresult. lia.
Qed.

(** Over an array of unsigned bytes the loader reaches the success
    callback when every request succeeds. *)
Lemma array_loadData_succeeds :
  (_loadData (ArrayFileReader.make bytes) (replicate (S (length bytes)) true)).2
  = Some onSuccess.
Proof.
  cbn [replicate _loadData snd].
  apply (loadAtom_ends (ArrayFileReader.make bytes)).
  - apply array_sizes_unsigned.
  - rewrite length_replicate. simpl. lia.
  - by apply Forall_replicate.
Qed.

End ArraySource.

(** ** The sample files *)

Example siblingOfMeta_bytes :
  Sample.siblingOfMeta =
    [ 68; 0; 0; 0; 109; 111; 111; 118;       (* 0: moov, 68 bytes *)
      60; 0; 0; 0; 117; 100; 116; 97;        (* 8: udta, 60 bytes *)
      12; 0; 0; 0; 109; 101; 116; 97;        (* 16: meta, 12 bytes *)
      0; 0; 0; 0;                            (* 24: next_item_id *)
      40; 0; 0; 0; 105; 108; 115; 116;       (* 28: ilst, 40 bytes *)
      32; 0; 0; 0; 116; 114; 107; 110;       (* 36: trkn, 32 bytes *)
      24; 0; 0; 0; 100; 97; 116; 97;         (* 44: data, 24 bytes *)
      0; 0; 0; 0; 0; 0; 0; 0;                (* 52: version, class, locale *)
      0; 0; 0; 5; 0; 12; 0; 0 ].             (* 60: track 5 of 12 *)
Proof. reflexivity. Qed.

Example tagged_tmpo_bytes :
  Sample.tagged Sample.tmpo =
    [ 62; 0; 0; 0; 109; 111; 111; 118;       (* 0: moov, 62 bytes *)
      54; 0; 0; 0; 117; 100; 116; 97;        (* 8: udta, 54 bytes *)
      46; 0; 0; 0; 109; 101; 116; 97;        (* 16: meta, 46 bytes *)
      0; 0; 0; 0;                            (* 24: next_item_id *)
      34; 0; 0; 0; 105; 108; 115; 116;       (* 28: ilst, 34 bytes *)
      26; 0; 0; 0; 116; 109; 112; 111;       (* 36: tmpo, 26 bytes *)
      18; 0; 0; 0; 100; 97; 116; 97;         (* 44: data, 18 bytes *)
      0; 0; 0; 0; 0; 0; 0; 0;                (* 52: version, class, locale *)
      0; 120 ].                              (* 60: the value *)
Proof. reflexivity. Qed.

Example withMdat_bytes :
  Sample.withMdat =
    [ 68; 0; 0; 0; 109; 111; 111; 118;       (* 0: moov, 68 bytes *)
      60; 0; 0; 0; 117; 100; 116; 97;        (* 8: udta, 60 bytes *)
      52; 0; 0; 0; 109; 101; 116; 97;        (* 16: meta, 52 bytes *)
      0; 0; 0; 0;                            (* 24: next_item_id *)
      40; 0; 0; 0; 105; 108; 115; 116;       (* 28: ilst, 40 bytes *)
      32; 0; 0; 0; 116; 114; 107; 110;       (* 36: trkn, 32 bytes *)
      24; 0; 0; 0; 100; 97; 116; 97;         (* 44: data, 24 bytes *)
      0; 0; 0; 0; 0; 0; 0; 0;                (* 52: version, class, locale *)
      0; 0; 0; 5; 0; 12; 0; 0;               (* 60: track 5 of 12 *)
      24; 0; 0; 0; 109; 100; 97; 116;        (* 68: mdat, 24 bytes *)
      255; 255; 255; 255; 255; 255; 255; 255;
      255; 255; 255; 255; 255; 255; 255; 255 ].
Proof. reflexivity. Qed.

(** The decode pass over the tagged sample file. *)
Example parseData_track_5_of_12 :
  _parseData (ArrayFileReader.make (Sample.tagged Sample.trkn)) 6 None
  = Some (<["count" := VNumber (Num 12)]> (<["trkn" := VNumber (Num 5)]> ∅)).
Proof. vm_compute. reflexivity. Qed.

(** The chain of requests over the tagged sample file, and the chain cut
    short by a request that fails. *)
Example loadData_tagged :
  _loadData (ArrayFileReader.make (Sample.tagged Sample.trkn)) (replicate 6 true)
  = ([(0, 7); (8, 16); (16, 24); (28, 36); (36, 44); (36, 76)], Some onSuccess)
  /\ _loadData (ArrayFileReader.make (Sample.tagged Sample.trkn)) [true; true; false]
     = ([(0, 7); (8, 16); (16, 24)], Some onError).
Proof. split; vm_compute; reflexivity. Qed.

(** ** The claims at the sample files *)

(** C1 fails on the code.  In [Sample.siblingOfMeta] the children of
    [udta] start at 16 with the container [meta], whose declared size is
    12, so [meta] ends at 28; the sibling that follows it at 28 is an
    [ilst] atom.  The walk descends into [meta], the first container of
    the level, and still reads the header of the sibling, as a child of
    [meta], and decodes its track number into the output; without the
    sibling the output is empty. *)
Theorem sibling_after_first_container_is_decoded :
  let data := ArrayFileReader.make Sample.siblingOfMeta in
  getStringAt data (16 + 4) 4 = "meta"
  /\ getLongAt data 16 true = Num 12
  /\ getStringAt data (16 + 12 + 4) 4 = "ilst"
  /\ Visit 3 (16 + 12) (Some "moov.udta.meta")
       ∈ readAtom_visits data 6 0 ∅ VUndefined (Num 0) (Num (getSize data)) None
  /\ _parseData data 6 None
     = Some (<["count" := VNumber (Num 12)]> (<["trkn" := VNumber (Num 5)]> ∅))
  /\ _parseData (ArrayFileReader.make (Sample.emptyMeta [])) 6 None = Some ∅.
Proof.
  repeat split; try (vm_compute; reflexivity).
  vm_compute. do 3 right. left.
Qed.

(** The early return at the [meta] atom of [Sample.siblingOfMeta]: the
    walk of the children of [udta], which ends at 68, goes on as the call
    of [_readAtom] at 28 with length 4. *)
Lemma readAtom_returns_after_first_container_witness :
  readAtom_loop (ArrayFileReader.make Sample.siblingOfMeta) 4 ∅ VUndefined
    (Num 16) (Num 68) (Some "moov.udta")
  = _readAtom (ArrayFileReader.make Sample.siblingOfMeta) 3 ∅
      (Num 28) (Num 4) (Some "moov.udta.meta").
Proof.
  refine (proj1
    (readAtom_returns_after_first_container
       (ArrayFileReader.make Sample.siblingOfMeta)
       3 2 ∅ VUndefined 16 68 100 (Some "moov.udta") (Num 12) "meta" _ _ _ _ _ _)).
  - lia.
  - lia.
  - vm_compute; reflexivity.
  - discriminate.
  - vm_compute; reflexivity.
  - vm_compute; reflexivity.
Defined.

(** C2, as stated, fails: the FourCC [xxxx] is no key of [ATOMS] and no
    container name, the decoder meets it at offset 36 under
    [moov.udta.meta.ilst], and the output has an entry for it. *)
Lemma unlisted_fourcc_has_an_entry :
  let data := ArrayFileReader.make (Sample.tagged Sample.xxxx) in
  ATOMS !! "xxxx" = None
  /\ _isContainerAtom "xxxx" = false
  /\ getStringAt data (36 + 4) 4 = "xxxx"
  /\ Visit 4 36 (Some metadataPath)
       ∈ readAtom_visits data 6 0 ∅ VUndefined (Num 0) (Num (getSize data)) None
  /\ _parseData data 6 None = Some (<["xxxx" := VNumber (Num 7)]> ∅).
Proof.
  repeat split; try (vm_compute; reflexivity).
  vm_compute. do 4 right. left.
Qed.

(** The amended C2 at the atom [xxxx] of the sample file. *)
Lemma unlisted_value_atom_is_stored_witness :
  is_Some ((<["xxxx" := VNumber (Num 7)]> ∅ : Tag) !! "xxxx").
Proof.
  refine (proj2 (proj2
    (unlisted_value_atom_is_stored
       (ArrayFileReader.make (Sample.tagged Sample.xxxx))
       1 ∅ VUndefined 36 62 (Num 26) "xxxx" (<["xxxx" := VNumber (Num 7)]> ∅)
       _ _ _ _ _ _)) _ _).
  - lia.
  - vm_compute; reflexivity.
  - discriminate.
  - vm_compute; reflexivity.
  - vm_compute; reflexivity.
  - vm_compute; reflexivity.
  - discriminate.
  - vm_compute; reflexivity.
Defined.

(** C3 fails on the code.  In [Sample.withMdat] the atom [moov] spans the
    offsets 0 to 68 and the value atom [mdat], of size 24, follows it at the
    top level, so its parent path is empty.  The loader still holds the
    path [moov.udta.meta.ilst] when it gets there, and requests the range
    from 68 on, which holds the payload bytes 76 to 91. *)
Theorem loader_fetches_payload_after_ilst :
  let r := ArrayFileReader.make Sample.withMdat in
  getStringAt r (0 + 4) 4 = "moov"
  /\ getLongAt r 0 true = Num 68
  /\ getStringAt r (68 + 4) 4 = "mdat"
  /\ getLongAt r 68 true = Num 24
  /\ _isContainerAtom "mdat" = false
  /\ _loadData r (replicate 7 true)
     = ([(0, 7); (8, 16); (16, 24); (28, 36); (36, 44); (36, 76); (68, 100)],
        Some onSuccess)
  /\ loadAtom_call r 68 metadataPath = LoadRange (68, 68 + 24 + 8) (68 + 24) metadataPath
  /\ 68 < 68 + 24.
Proof.
  repeat split; try (vm_compute; reflexivity).
Qed.

(** C4, as stated, fails.  The atom [tmpo] of the sample file sits at
    offset 36 under [moov.udta.meta.ilst] with class code 0; its payload
    at 36 + 24 is the bytes 0 and 120, which is 120 as an unsigned 16-bit
    big-endian integer.  The decoder stores 30720. *)
Lemma tempo_is_not_read_big_endian :
  let bytes := Sample.tagged Sample.tmpo in
  let data := ArrayFileReader.make bytes in
  getStringAt data (36 + 4) 4 = "tmpo"
  /\ TYPES_at (getInteger24At data (36 + 16 + 1) true) = Some "uint8"
  /\ bytes !! 60%nat = Some 0
  /\ bytes !! 61%nat = Some 120
  /\ ArrayFileReader.uintAt bytes (36 + 24) 2 true = Num (256 * 0 + 120)
  /\ _parseData data 6 None = Some (<["tmpo" := VNumber (Num 30720)]> ∅)
  /\ 30720 ≠ 256 * 0 + 120.
Proof.
  repeat split; try (vm_compute; reflexivity). lia.
Qed.

(** The amended C4 at the atom [tmpo] of the sample file. *)
Lemma uint8_is_read_little_endian_witness :
  exists tag',
    readAtom_iteration (ArrayFileReader.make (Sample.tagged Sample.tmpo))
      ∅ VUndefined (Num 36) (Num 62) (Some metadataPath)
    = Next tag' (VNumber (Num (0 + 256 * 120))) (Num 62)
    /\ tag' !! "tmpo" = Some (VNumber (Num (0 + 256 * 120))).
Proof.
  refine (proj1
    (uint8_is_read_little_endian
       (ArrayFileReader.make (Sample.tagged Sample.tmpo))
       ∅ VUndefined 36 62 (Num 26) "tmpo" _ _ _ _ _ _ _ _)).
  - lia.
  - vm_compute; reflexivity.
  - discriminate.
  - vm_compute; reflexivity.
  - vm_compute; reflexivity.
  - discriminate.
  - discriminate.
  - vm_compute; reflexivity.
Defined.

(** C5 at the [meta] atom of the tagged sample file, at offset 16. *)
Lemma meta_children_are_requested_past_next_item_id_witness :
  loadAtom_call (ArrayFileReader.make (Sample.tagged Sample.trkn)) 16 "moov.udta"
  = LoadRange (28, 36) 28 "moov.udta.meta".
Proof.
  refine (proj1
    (meta_children_are_requested_past_next_item_id
       (ArrayFileReader.make (Sample.tagged Sample.trkn))
       [] 16 "moov.udta" 52 _ _ _ _)).
  - vm_compute; reflexivity.
  - vm_compute; reflexivity.
  - discriminate.
  - vm_compute; reflexivity.
Defined.

(** C6 at the atom of size zero of [Sample.zeroSized], at offset 12. *)
Lemma zero_size_or_end_of_source_stops_silently_witness :
  _loadAtom (ArrayFileReader.make Sample.zeroSized) [true] 12 "" = ([], Some onSuccess)
  /\ readAtom_loop (ArrayFileReader.make Sample.zeroSized) 1 ∅ VUndefined (Num 12) (Num 20) None
     = Some ∅.
Proof.
  split.
  - refine (proj2
      (proj1 (zero_size_or_end_of_source_stops_silently
                (ArrayFileReader.make Sample.zeroSized)) [true] 12 "" _)).
    right; left. vm_compute; reflexivity.
  - refine (proj1 (proj2
      (proj2 (zero_size_or_end_of_source_stops_silently
                (ArrayFileReader.make Sample.zeroSized))
         0%nat 0%nat ∅ VUndefined 12 (Num 20) None _))).
    vm_compute; reflexivity.
Defined.

(** C7 at the [trkn] atom of the tagged sample file: track 5 of 12. *)
Lemma trkn_stores_track_and_count_witness :
  readAtom_loop (ArrayFileReader.make (Sample.tagged Sample.trkn)) 2 ∅ VUndefined
    (Num 36) (Num 68) (Some metadataPath)
  = Some (<["count" := VNumber (Num 12)]> (<["trkn" := VNumber (Num 5)]> ∅)).
Proof.
  refine (proj1 (proj2 (proj2 (proj2
    (trkn_stores_track_and_count
       (ArrayFileReader.make (Sample.tagged Sample.trkn))
       ∅ VUndefined 36 68 (Num 32) _ _ _ _)))) 0%nat 32 _ _).
  - lia.
  - vm_compute; reflexivity.
  - discriminate.
  - vm_compute; reflexivity.
  - reflexivity.
  - lia.
Defined.

(** C8 at a file whose [ilst] holds the marker atom, then a [trkn] atom. *)
Lemma marker_atom_is_never_stored_witness :
  (<["count" := VNumber (Num 12)]> (<["trkn" := VNumber (Num 5)]> ∅) : Tag) !! "----"
  = None.
Proof.
  refine (proj2 (proj2 (proj2
    (marker_atom_is_never_stored
       (ArrayFileReader.make (Sample.tagged (Sample.dashes ++ Sample.trkn)%list)))))
    7%nat None _ _).
  vm_compute; reflexivity.
Defined.

(** C9 at the [meta] atom of [Sample.siblingOfHandler]: offset 16,
    declared size 24, one child of 12 bytes at 28.  The walk of the
    children is bounded by 44; it goes over the child, reads the header
    of the sibling [ilst] at 40, where [meta] ends, descends into it
    under the path [moov.udta.meta.ilst] and decodes its track number. *)
Lemma meta_children_walk_overruns_by_four_witness :
  readAtom_loop (ArrayFileReader.make Sample.siblingOfHandler) 5 ∅ VUndefined
    (Num 16) (Num 80) (Some "moov.udta")
  = Some (<["count" := VNumber (Num 12)]> (<["trkn" := VNumber (Num 5)]> ∅)).
Proof.
  destruct (meta_children_walk_overruns_by_four
              (ArrayFileReader.make Sample.siblingOfHandler)
              0 2 ∅ VUndefined 16 80 (Some "moov.udta") 24 [("hdlr", 12)])
    as (_ & _ & Hreach & _).
  - lia.
  - vm_compute; reflexivity.
  - discriminate.
  - vm_compute; reflexivity.
  - vm_compute. repeat split; reflexivity.
  - destruct Hreach as (_ & _ & _ & _ & _ & Hdecoded); [vm_compute; reflexivity|].
    refine (Hdecoded 40 32 _ _ _ _ _ _).
    + vm_compute; reflexivity.
    + vm_compute; reflexivity.
    + vm_compute; reflexivity.
    + vm_compute; reflexivity.
    + vm_compute; reflexivity.
    + lia.
Defined.

(** The decode pass over [Sample.siblingOfHandler]: the track number of
    the sibling of [meta] is in the output. *)
Example parseData_siblingOfHandler :
  _parseData (ArrayFileReader.make Sample.siblingOfHandler) 7 None
  = Some (<["count" := VNumber (Num 12)]> (<["trkn" := VNumber (Num 5)]> ∅)).
Proof. vm_compute. reflexivity. Qed.

(** C10 at the tagged sample file, with and without a list of requested
    fields. *)
Lemma parseData_ignores_requested_fields_witness :
  _parseData (ArrayFileReader.make (Sample.tagged Sample.trkn)) 6 None
  = _parseData (ArrayFileReader.make (Sample.tagged Sample.trkn)) 6
      (Some ["title"; "artist"]).
Proof.
  apply (proj2 parseData_ignores_requested_fields
           (ArrayFileReader.make (Sample.tagged Sample.trkn))
           (ArrayFileReader.make (Sample.tagged Sample.trkn))).
  constructor; reflexivity.
Defined.

(** * Further properties *)

Local Open Scope list_scope.

(** ** The tag identifier *)

Lemma slice_app_middle {A : Type} (before body after : list A) :
  slice (length before) (length before + length body) (before ++ body ++ after) = body.
Proof.
  unfold slice. rewrite drop_app_length.
  replace (length before + length body - length before)%nat with (length body) by lia.
  apply take_app_length.
Qed.

Lemma slice_parts {A : Type} (start stop : nat) (array : list A) :
  (start < stop)%nat ->
  length (slice start stop array) = (stop - start)%nat ->
  array = take start array ++ slice start stop array ++ drop stop array
  /\ length (take start array) = start.
Proof.
  intros Hle Hlen. unfold slice in *. rewrite length_take, length_drop in Hlen.
  split; [|rewrite length_take; lia].
  replace stop with (start + (stop - start))%nat at 2 by lia.
  rewrite <- drop_drop, take_drop. by rewrite take_drop.
Qed.

(** X1.  [canReadTagFormat] answers true exactly when the identifier is
    made of four elements, whatever they are, then seven elements whose
    code units spell "ftypM4A", then anything; an identifier of fewer than
    eleven elements is refused. *)
Theorem canReadTagFormat_spells_ftypM4A (tagIdentifier : list jsNumber) :
  (canReadTagFormat tagIdentifier = true <->
   exists size body rest,
     tagIdentifier = size ++ body ++ rest
     /\ length size = 4%nat
     /\ fromCharCode body = codeUnits "ftypM4A")
  /\ ((length tagIdentifier < 11)%nat -> canReadTagFormat tagIdentifier = false).
Proof.
  assert (Hiff : canReadTagFormat tagIdentifier = true <->
            exists size body rest,
              tagIdentifier = size ++ body ++ rest
              /\ length size = 4%nat
              /\ fromCharCode body = codeUnits "ftypM4A").
  { unfold canReadTagFormat. cbv zeta. rewrite bool_decide_eq_true. split.
    - intros Hid.
      assert (Hlen : length (slice 4 11 tagIdentifier) = (11 - 4)%nat).
      { apply (f_equal length) in Hid. unfold fromCharCode in Hid.
        by rewrite length_fmap in Hid. }
      destruct (slice_parts 4 11 tagIdentifier) as [Hparts Hsize]; [lia|done|].
      by exists (take 4 tagIdentifier), (slice 4 11 tagIdentifier),
                (drop 11 tagIdentifier).
    - intros (size & body & rest & -> & Hsize & Hbody).
      assert (Hlen : length body = 7%nat).
      { apply (f_equal length) in Hbody. unfold fromCharCode in Hbody.
        by rewrite length_fmap in Hbody. }
      replace 11%nat with (length size + length body)%nat by lia.
      rewrite <- Hsize at 1.
      by rewrite slice_app_middle. }
  split; [exact Hiff|].
  intros Hshort. apply not_true_is_false. intros Hyes.
  apply Hiff in Hyes as (size & body & rest & -> & Hsize & Hbody).
  apply (f_equal length) in Hbody. unfold fromCharCode in Hbody.
  rewrite length_fmap in Hbody. rewrite !length_app in Hshort.
  simpl in Hbody. lia.
Qed.

(** X2.  The byte range [getTagIdentifierByteRange] names is enough for
    [canReadTagFormat]: the answer for a file is the answer for the bytes
    of that range, so two files that agree on the range get the same
    answer; and the four bytes before the signature, the size of the
    first atom, play no part. *)
Theorem tag_identifier_range_suffices (file other : list jsNumber) :
  canReadTagFormat (inRange getTagIdentifierByteRange file) = canReadTagFormat file
  /\ (inRange getTagIdentifierByteRange file = inRange getTagIdentifierByteRange other ->
      canReadTagFormat file = canReadTagFormat other)
  /\ (forall size size' rest,
        length size = 4%nat -> length size' = 4%nat ->
        canReadTagFormat (size ++ rest) = canReadTagFormat (size' ++ rest)).
Proof.
  assert (Hrange : forall l : list jsNumber,
            canReadTagFormat (inRange getTagIdentifierByteRange l) = canReadTagFormat l).
  { intros l. unfold canReadTagFormat, inRange, slice. simpl.
    change (Z.to_nat 0) with 0%nat. rewrite drop_0.
    apply bool_decide_ext.
    assert (Hslice : take 7 (drop 4 (take (4 + 7) l)) = take 7 (drop 4 l))
      by (by rewrite <- take_drop_commute, take_take).
    simpl in Hslice. by rewrite Hslice. }
  repeat split.
  - apply Hrange.
  - intros Hsame. by rewrite <- (Hrange file), <- (Hrange other), Hsame.
  - intros size size' rest Hsize Hsize'. unfold canReadTagFormat, slice.
    apply bool_decide_ext.
    assert (Hdrop : drop 4 (size ++ rest) = drop 4 (size' ++ rest)).
    { transitivity rest.
      - rewrite <- Hsize. apply drop_app_length.
      - rewrite <- Hsize'. symmetry. apply drop_app_length. }
    by rewrite Hdrop.
Qed.

(** The first bytes of an M4A file: an atom [ftyp] of 32 bytes whose
    payload starts with the brand "M4A ". *)
Example canReadTagFormat_m4a :
  canReadTagFormat
    (Num <$> [0; 0; 0; 32; 102; 116; 121; 112; 77; 52; 65; 32; 0; 0; 0; 0]) = true
  /\ canReadTagFormat
       (Num <$> [0; 0; 0; 32; 102; 116; 121; 112; 105; 115; 111; 109]) = false.
Proof. split; reflexivity. Qed.

(** ** The chain of requests *)

Lemma loadAtom_requests_count r answers : forall offset parent,
  (forall o, unsigned (getLongAt r o true)) ->
  (length (_loadAtom r answers offset parent).1 <= Z.to_nat (getSize r - offset))%nat.
Proof.
  induction answers as [|answer answers IH]; intros offset parent Hunsigned;
    rewrite loadAtom_unfold;
    destruct (loadAtom_call r offset parent) as [|range offset' parent'] eqn:Hcall;
    try (simpl; lia);
    apply loadAtom_call_moves_on in Hcall; try done.
  - simpl. lia.
  - destruct answer; simpl; [|lia].
    specialize (IH offset' parent' Hunsigned). lia.
Qed.

(** X3.  Over a source whose sizes are unsigned the chain of requests
    ends: it makes at most one request per byte between the offset and the
    end of the source, and once every one of them is answered it has
    called one of the two callbacks, the success callback when all the
    answers are successes. *)
Theorem loader_chain_ends r answers offset parent :
  (forall o, unsigned (getLongAt r o true)) ->
  (Z.to_nat (getSize r - offset) <= length answers)%nat ->
  is_Some (_loadAtom r answers offset parent).2
  /\ (Forall (fun answer => answer = true) answers ->
      (_loadAtom r answers offset parent).2 = Some onSuccess)
  /\ (length (_loadAtom r answers offset parent).1
      <= Z.to_nat (getSize r - offset))%nat.
Proof.
  intros Hunsigned Hlen.
  destruct (loadAtom_ends r answers offset parent Hunsigned Hlen) as [Hsome Hall].
  repeat split; [done|done|]. by apply loadAtom_requests_count.
Qed.

(** X4.  The chain ends in the error callback exactly when a request
    fails: the requests before it were answered by successes and the
    failed request is the last one made; what the source would answer
    afterwards plays no part. *)
Theorem loader_error_is_a_failed_request r answers offset parent :
  ((_loadAtom r answers offset parent).2 = Some onError <->
   exists n,
     answers !! n = Some false
     /\ (forall i, (i < n)%nat -> answers !! i = Some true)
     /\ length (_loadAtom r answers offset parent).1 = S n)
  /\ (forall before after after',
        answers = before ++ false :: after ->
        _loadAtom r (before ++ false :: after') offset parent
        = _loadAtom r answers offset parent).
Proof.
  split.
  - revert offset parent.
    induction answers as [|answer answers IH]; intros offset parent;
      rewrite loadAtom_unfold;
      destruct (loadAtom_call r offset parent) as [|range offset' parent'].
    + split; [done|]. by intros (n & _ & _ & Hlen).
    + split; [done|]. by intros (n & Hn & _).
    + split; [done|]. by intros (n & _ & _ & Hlen).
    + destruct answer; simpl.
      * rewrite IH. split.
        -- intros (n & Hn & Hbefore & Hlen). exists (S n). repeat split; [done| |lia].
           intros [|i] Hi; [done|]. simpl. apply Hbefore. lia.
        -- intros (n & Hn & Hbefore & Hlen). destruct n as [|n]; [done|].
           exists n. repeat split; [done| |lia].
           intros i Hi. apply (Hbefore (S i)). lia.
      * split.
        -- intros _. exists 0%nat. repeat split. intros i Hi. lia.
        -- done.
  - intros before after after' ->. revert offset parent.
    induction before as [|answer before IH]; intros offset parent;
      rewrite !(loadAtom_unfold r (_ ++ _)); simpl;
      destruct (loadAtom_call r offset parent) as [|range offset' parent']; try done.
    destruct answer; [|done]. by rewrite (IH offset' parent').
Qed.

(** ** The loader and the decoder walk alike *)

Lemma atomFullName_pathName parent atomName :
  atomFullName (Some (pathName parent)) atomName = atomFullName parent atomName.
Proof. by destruct parent. Qed.

Lemma visits_NaN_seek data fuel level tag atomData stop parent :
  readAtom_visits data fuel level tag atomData NaN stop parent = [].
Proof. by destruct fuel. Qed.

Lemma visits_NaN_stop data fuel level tag atomData seek parent :
  readAtom_visits data fuel level tag atomData seek NaN parent = [].
Proof. by destruct fuel, seek. Qed.

(** Over unsigned sizes the walk never reads a header before the one it
    starts from. *)
Lemma visits_from data fuel :
  (forall o, unsigned (getLongAt data o true)) ->
  forall level tag atomData seek stop parent v,
    v ∈ readAtom_visits data fuel level tag atomData (Num seek) stop parent ->
    seek <= visit_offset v.
Proof.
  intros Hunsigned.
  induction fuel as [|fuel IH]; intros level tag atomData seek stop parent v Hv.
  { by apply elem_of_nil in Hv. }
  rewrite readAtom_visits_S in Hv. apply elem_of_app in Hv as [Hhere|Hrest].
  - destruct (Js.lt (Num seek) stop); [|by apply elem_of_nil in Hhere].
    apply list_elem_of_singleton in Hhere as ->. simpl. lia.
  - unfold readAtom_iteration in Hrest.
    destruct (Js.lt (Num seek) stop); [|by apply elem_of_nil in Hrest].
    pose proof (Hunsigned seek) as Hsize.
    destruct (getLongAt data seek true) as [size|]; cbn [Js.isZero] in Hrest.
    + destruct (Z.eqb_spec size 0); [by apply elem_of_nil in Hrest|].
      simpl in Hsize.
      destruct (_isContainerAtom _); apply IH in Hrest;
        [destruct (String.eqb _ "meta")|]; lia.
    + destruct (_isContainerAtom _); cbn [Js.sub Js.add] in Hrest.
      * rewrite visits_NaN_stop in Hrest. by apply elem_of_nil in Hrest.
      * rewrite visits_NaN_seek in Hrest. by apply elem_of_nil in Hrest.
Qed.

(** The loader, all its requests answered by successes, goes through the
    headers the decoder reads inside the source, with the same parent
    name: each of them is covered by a request, and what a call of
    [_loadAtom] requests there is among the requests of the chain. *)
Lemma loader_follows_decoder data fuel :
  (forall o, unsigned (getLongAt data o true)) ->
  forall n level tag atomData seek stop parent prev v,
    (fuel <= n)%nat ->
    coversHeader prev seek ->
    v ∈ readAtom_visits data fuel level tag atomData (Num seek) stop parent ->
    visit_offset v < getSize data ->
    (exists range,
       range ∈ prev :: (_loadAtom data (replicate n true) seek (pathName parent)).1
       /\ coversHeader range (visit_offset v))
    /\ (forall range offset' parent',
          loadAtom_call data (visit_offset v) (pathName (visit_parent v))
            = LoadRange range offset' parent' ->
          range ∈ (_loadAtom data (replicate n true) seek (pathName parent)).1).
Proof.
  intros Hunsigned.
  induction fuel as [|fuel IH]; intros n level tag atomData seek stop parent prev v Hn Hprev Hv Hin.
  { by apply elem_of_nil in Hv. }
  destruct n as [|n]; [lia|].
  rewrite readAtom_visits_S in Hv. apply elem_of_app in Hv as [Hhere|Hrest].
  - (* the header the walk starts from *)
    destruct (Js.lt (Num seek) stop); [|by apply elem_of_nil in Hhere].
    apply list_elem_of_singleton in Hhere as ->.
    cbn [visit_offset visit_parent] in *. split.
    + exists prev. split; [apply list_elem_of_here|done].
    + intros range offset' parent' Hcall.
      rewrite loadAtom_unfold, Hcall. cbn [replicate fst]. apply list_elem_of_here.
  - (* a later header: the loader makes the step the decoder makes *)
    pose proof (visits_from data fuel Hunsigned) as Hfrom.
    unfold readAtom_iteration in Hrest.
    destruct (Js.lt (Num seek) stop); [|by apply elem_of_nil in Hrest].
    pose proof (Hunsigned seek) as Hsize.
    destruct (getLongAt data seek true) as [size|] eqn:Hlong; cbn [Js.isZero] in Hrest.
    + destruct (Z.eqb_spec size 0) as [|Hnz]; [by apply elem_of_nil in Hrest|].
      simpl in Hsize.
      destruct (_isContainerAtom (getStringAt data (seek + 4) 4)) eqn:Hcont;
        cbn [Js.sub Js.add] in Hrest.
      * (* a container *)
        pose proof (Hfrom _ _ _ _ _ _ _ Hrest) as Hlater.
        assert (Hcall : loadAtom_call data seek (pathName parent)
                  = LoadRange
                      ((if String.eqb (getStringAt data (seek + 4) 4) "meta"
                        then seek + 4 else seek) + 8,
                       (if String.eqb (getStringAt data (seek + 4) 4) "meta"
                        then seek + 4 else seek) + 8 + 8)
                      ((if String.eqb (getStringAt data (seek + 4) 4) "meta"
                        then seek + 4 else seek) + 8)
                      (atomFullName parent (getStringAt data (seek + 4) 4))).
        { unfold loadAtom_call.
          rewrite bool_decide_eq_false_2
            by (destruct (String.eqb (getStringAt data (seek + 4) 4) "meta"); lia).
          rewrite Hlong, (proj2 (Z.eqb_neq size 0) Hnz), Hcont.
          cbv zeta. by rewrite atomFullName_pathName. }
        rewrite loadAtom_unfold, Hcall. cbn [replicate fst].
        assert (Hle : (fuel <= n)%nat) by lia.
        match type of Hcall with
        | _ = LoadRange ?request ?child _ =>
            assert (Hnext : coversHeader request child) by (split; simpl; lia)
        end.
        destruct (IH n _ _ _ _ _ _ _ v Hle Hnext Hrest Hin)
          as [(range & Hrange & Hcovers) Hcalls].
        split.
        -- exists range. split; [by apply list_elem_of_further|done].
        -- intros range' offset' parent' Hcall'.
           apply list_elem_of_further. by eapply Hcalls.
      * (* a value atom *)
        pose proof (Hfrom _ _ _ _ _ _ _ Hrest) as Hlater.
        assert (Hcall : loadAtom_call data seek (pathName parent)
                  = LoadRange
                      (seek + (if String.eqb (pathName parent) metadataPath
                               then 0 else size), seek + size + 8)
                      (seek + size) (pathName parent)).
        { unfold loadAtom_call. rewrite bool_decide_eq_false_2 by lia.
          by rewrite Hlong, (proj2 (Z.eqb_neq size 0) Hnz), Hcont. }
        rewrite loadAtom_unfold, Hcall. cbn [replicate fst].
        assert (Hle : (fuel <= n)%nat) by lia.
        match type of Hcall with
        | _ = LoadRange ?request ?next _ =>
            assert (Hnext : coversHeader request next)
              by (split; simpl;
                  destruct (String.eqb (pathName parent) metadataPath); lia)
        end.
        destruct (IH n _ _ _ _ _ _ _ v Hle Hnext Hrest Hin)
          as [(range & Hrange & Hcovers) Hcalls].
        split.
        -- exists range. split; [by apply list_elem_of_further|done].
        -- intros range' offset' parent' Hcall'.
           apply list_elem_of_further. by eapply Hcalls.
    + (* the size is not a number: the decoder reads no further header *)
      destruct (_isContainerAtom _); cbn [Js.sub Js.add] in Hrest.
      * rewrite visits_NaN_stop in Hrest. by apply elem_of_nil in Hrest.
      * rewrite visits_NaN_seek in Hrest. by apply elem_of_nil in Hrest.
Qed.

(** X5.  Over a source whose sizes are unsigned, every atom header that
    the decode pass reads inside the source lies in a range that the load
    pass has requested, once the load pass has had at least as many of
    its requests answered, all by successes, as the decode pass makes
    passes. *)
Theorem loader_requests_every_header_the_decoder_reads data fuel n v :
  (forall o, unsigned (getLongAt data o true)) ->
  (fuel <= n)%nat ->
  v ∈ readAtom_visits data fuel 0 ∅ VUndefined (Num 0) (Num (getSize data)) None ->
  visit_offset v < getSize data ->
  exists range,
    range ∈ (_loadData data (replicate (S n) true)).1
    /\ coversHeader range (visit_offset v).
Proof.
  intros Hunsigned Hn Hv Hin.
  assert (Hfirst : coversHeader (0, 7) 0) by (split; simpl; lia).
  destruct (loader_follows_decoder data fuel Hunsigned n 0 ∅ VUndefined 0 _ None (0, 7) v
              Hn Hfirst Hv Hin) as [Hheader _].
  exact Hheader.
Qed.

(** X6.  Over a source whose sizes are unsigned, for every value atom that
    the decode pass meets inside the source under [moov.udta.meta.ilst],
    the load pass has requested the range from the start of the atom to
    eight bytes past its declared end, so all the bytes of the atom. *)
Theorem loader_requests_every_atom_the_decoder_decodes data fuel n v size :
  (forall o, unsigned (getLongAt data o true)) ->
  (fuel <= n)%nat ->
  v ∈ readAtom_visits data fuel 0 ∅ VUndefined (Num 0) (Num (getSize data)) None ->
  visit_offset v < getSize data ->
  visit_parent v = Some metadataPath ->
  getLongAt data (visit_offset v) true = Num size ->
  size ≠ 0 ->
  _isContainerAtom (getStringAt data (visit_offset v + 4) 4) = false ->
  (visit_offset v, visit_offset v + size + 8)
    ∈ (_loadData data (replicate (S n) true)).1.
Proof.
  intros Hunsigned Hn Hv Hin Hpath Hsize Hnz Hvalue.
  assert (Hfirst : coversHeader (0, 7) 0) by (split; simpl; lia).
  destruct (loader_follows_decoder data fuel Hunsigned n 0 ∅ VUndefined 0 _ None (0, 7) v
              Hn Hfirst Hv Hin) as [_ Hcalls].
  cbn [_loadData replicate fst]. apply list_elem_of_further.
  eapply Hcalls. rewrite Hpath. cbn [pathName default].
  by apply value_atom_on_the_path_is_fetched.
Qed.

(** ** The decode pass *)

(** Over unsigned sizes every pass moves forward: the headers are read at
    strictly increasing offsets. *)
Lemma visits_increase data fuel :
  (forall o, unsigned (getLongAt data o true)) ->
  forall level tag atomData seek stop parent,
    StronglySorted Z.lt
      (visit_offset <$> readAtom_visits data fuel level tag atomData seek stop parent).
Proof.
  intros Hunsigned.
  induction fuel as [|fuel IH]; intros level tag atomData seek stop parent; [constructor|].
  rewrite readAtom_visits_S. unfold readAtom_iteration.
  destruct seek as [seek|]; [|constructor].
  destruct (Js.lt (Num seek) stop); [|constructor].
  cbn [app fmap list_fmap visit_offset]. constructor.
  - destruct (Js.isZero _); [constructor|]. destruct (_isContainerAtom _); apply IH.
  - apply Forall_fmap, Forall_forall. intros v Hv.
    pose proof (Hunsigned seek) as Hsize.
    destruct (getLongAt data seek true) as [size|]; cbn [Js.isZero] in Hv.
    + destruct (Z.eqb_spec size 0); [by apply elem_of_nil in Hv|]. simpl in Hsize.
      destruct (_isContainerAtom _); cbn [Js.add Js.sub] in Hv;
        apply (visits_from data fuel Hunsigned) in Hv; simpl;
        [destruct (String.eqb _ "meta")|]; lia.
    + destruct (_isContainerAtom _); cbn [Js.sub Js.add] in Hv.
      * rewrite visits_NaN_stop in Hv. by apply elem_of_nil in Hv.
      * rewrite visits_NaN_seek in Hv. by apply elem_of_nil in Hv.
Qed.

(** X7.  Over a source whose sizes are unsigned and which holds no atom
    from [bound] on, the decode pass returns: it reads headers at strictly
    increasing offsets and, within [bound] plus two passes, yields a
    mapping that further passes do not change. *)
Theorem decode_pass_returns data bound tags :
  (forall o, unsigned (getLongAt data o true)) ->
  (forall o, bound <= o ->
             getLongAt data o true = NaN \/ getLongAt data o true = Num 0) ->
  0 <= bound ->
  (exists result,
     forall fuel,
       (Z.to_nat bound + 2 <= fuel)%nat -> _parseData data fuel tags = Some result)
  /\ (forall fuel,
        StronglySorted Z.lt
          (visit_offset <$>
             readAtom_visits data fuel 0 ∅ VUndefined (Num 0) (Num (getSize data)) None)).
Proof.
  intros Hunsigned Hbound Hpos. split.
  - by apply (parseData_returns data bound).
  - intros fuel. by apply visits_increase.
Qed.

(** The mapping is left as it is by a walk that holds the metadata path
    at none of the headers it reads. *)
Lemma readAtom_loop_off_the_path data fuel :
  forall level tag atomData seek stop parent result,
    readAtom_loop data fuel tag atomData seek stop parent = Some result ->
    (forall v, v ∈ readAtom_visits data fuel level tag atomData seek stop parent ->
               visit_parent v ≠ Some metadataPath) ->
    result = tag.
Proof.
  induction fuel as [|fuel IH]; intros level tag atomData seek stop parent result; [done|].
  rewrite readAtom_loop_S, readAtom_visits_S. unfold readAtom_iteration.
  destruct seek as [seek|]; [|by intros [= <-]].
  destruct (Js.lt (Num seek) stop); [|by intros [= <-]].
  destruct (Js.isZero _); [by intros [= <-]|].
  destruct (_isContainerAtom _).
  - intros Hrun Hoff. eapply IH; [exact Hrun|].
    intros v Hv. apply Hoff. by apply list_elem_of_further.
  - intros Hrun Hoff.
    assert (Hparent : underMetadataPath parent = false).
    { specialize (Hoff (Visit level seek parent) (list_elem_of_here _ _)).
      simpl in Hoff. destruct parent as [p|]; [|done]. simpl.
      apply String.eqb_neq. congruence. }
    rewrite Hparent in Hrun, Hoff. simpl in Hrun, Hoff.
    eapply IH; [exact Hrun|].
    intros v Hv. apply Hoff. by apply list_elem_of_further.
Qed.

(** X8.  The decode pass stores nothing unless it reads a header while it
    holds the path [moov.udta.meta.ilst]: when no header is read under
    that path the mapping it returns is empty. *)
Theorem nothing_is_stored_off_the_metadata_path data fuel tags result :
  _parseData data fuel tags = Some result ->
  (forall v,
     v ∈ readAtom_visits data fuel 0 ∅ VUndefined (Num 0) (Num (getSize data)) None ->
     visit_parent v ≠ Some metadataPath) ->
  result = ∅.
Proof.
  unfold _parseData, _readAtom. apply readAtom_loop_off_the_path.
Qed.

(** ** A level of value atoms *)

Lemma underMetadataPath_false parent :
  parent ≠ Some metadataPath -> underMetadataPath parent = false.
Proof.
  destruct parent as [p|]; [|done]. intros Hne. simpl.
  apply String.eqb_neq. congruence.
Qed.

(** The walk of a level made of value atoms decodes them one after the
    other when the level is under the metadata path, and only skips them
    otherwise. *)
Lemma readAtom_loop_value_atoms data atoms : forall tag atomData seek stop parent,
  valueAtomsAt data seek atoms ->
  endOf seek atoms = stop ->
  readAtom_loop data (S (length atoms)) tag atomData (Num seek) (Num stop) parent
  = Some (if underMetadataPath parent then storeAll data tag atomData seek atoms else tag).
Proof.
  induction atoms as [|[atomName atomSize] atoms IH]; intros tag atomData seek stop parent.
  - intros _ <-. rewrite readAtom_loop_S, iteration_end by (unfold endOf; simpl; lia).
    by destruct (underMetadataPath parent).
  - intros (Hsize & Hpos & Hname & Hvalue & Hrest) Hend.
    pose proof (valueAtomsAt_end _ _ _ Hrest) as Hge.
    change (endOf seek ((atomName, atomSize) :: atoms))
      with (endOf (seek + atomSize) atoms) in Hend.
    rewrite readAtom_loop_S.
    rewrite (iteration_value data tag atomData seek stop parent (Num atomSize) atomName);
      [|lia|done|intros [= ?]; lia|done|done].
    cbv zeta. cbn [Js.add length].
    rewrite (IH _ _ (seek + atomSize) stop parent Hrest Hend).
    by destruct (underMetadataPath parent).
Qed.

Lemma readValueAtom_dom data (tag : Tag) atomData seek atomSize atomName :
  dom (readValueAtom data tag atomData seek atomSize atomName).1
  = dom tag ∪ (if String.eqb atomName "trkn"
               then list_to_set ["trkn"; "count"] else {[atomName]}).
Proof.
  unfold readValueAtom.
  destruct (String.eqb_spec atomName "trkn") as [->|]; cbn [fst].
  - rewrite !dom_insert_L. (set_unfold; intros; tauto).
  - destruct (String.eqb atomName (String c169 "cmt")); cbn [fst];
      rewrite dom_insert_L; (set_unfold; intros; tauto).
Qed.

Lemma storeAll_dom data atoms : forall (tag : Tag) atomData seek,
  dom (storeAll data tag atomData seek atoms) = dom tag ∪ storedKeys atoms.
Proof.
  induction atoms as [|[atomName atomSize] atoms IH]; intros tag atomData seek.
  - unfold storedKeys. simpl. (set_unfold; intros; tauto).
  - cbn [storeAll]. rewrite IH. unfold storedKeys. cbn [flat_map fst].
    rewrite list_to_set_app_L. unfold _canReadAtom.
    destruct (String.eqb atomName "----"); cbn [negb].
    + (set_unfold; intros; tauto).
    + rewrite readValueAtom_dom.
      destruct (String.eqb atomName "trkn"); (set_unfold; intros; tauto).
Qed.

(** X9.  When the level under [moov.udta.meta.ilst] is made of value atoms
    that fill it exactly, the walk decodes the readable ones in the order
    of the file, one pass per atom, each pass taking the mapping and the
    variable [atomData] as the pass before has left them, so that a later
    atom overwrites an earlier one of the same name, and returns; the keys
    it adds are the FourCCs of the atoms other than "----", and "count"
    beside "trkn".  Under any other path the same walk returns the
    mapping as it was. *)
Theorem value_atoms_are_decoded_in_file_order data tag atomData seek stop atoms :
  valueAtomsAt data seek atoms ->
  endOf seek atoms = stop ->
  readAtom_loop data (S (length atoms)) tag atomData (Num seek) (Num stop) (Some metadataPath)
    = Some (storeAll data tag atomData seek atoms)
  /\ dom (storeAll data tag atomData seek atoms) = dom tag ∪ storedKeys atoms
  /\ (forall parent,
        parent ≠ Some metadataPath ->
        readAtom_loop data (S (length atoms)) tag atomData (Num seek) (Num stop) parent
          = Some tag).
Proof.
  intros Hatoms Hend. repeat split.
  - by rewrite (readAtom_loop_value_atoms data atoms tag atomData seek stop).
  - apply storeAll_dom.
  - intros parent Hparent.
    rewrite (readAtom_loop_value_atoms data atoms tag atomData seek stop) by done.
    by rewrite underMetadataPath_false.
Qed.

(** X10.  Along a run of value atoms inside the source the loader makes
    one request per atom and goes on behind the run: under the path
    [moov.udta.meta.ilst] each request spans the atom and the eight bytes
    after it, under any other path only the eight bytes after it. *)
Theorem loader_requests_along_value_atoms data atoms :
  forall answers seek parent,
    valueAtomsAt data seek atoms ->
    endOf seek atoms <= getSize data ->
    _loadAtom data (replicate (length atoms) true ++ answers) seek parent
    = (requestsFor parent seek atoms
         ++ (_loadAtom data answers (endOf seek atoms) parent).1,
       (_loadAtom data answers (endOf seek atoms) parent).2).
Proof.
  induction atoms as [|[atomName atomSize] atoms IH]; intros answers seek parent.
  - intros _ _. unfold endOf. simpl. by destruct (_loadAtom data answers seek parent).
  - intros (Hsize & Hpos & Hname & Hvalue & Hrest) Hend.
    pose proof (valueAtomsAt_end _ _ _ Hrest) as Hge.
    change (endOf seek ((atomName, atomSize) :: atoms))
      with (endOf (seek + atomSize) atoms) in *.
    rewrite loadAtom_unfold. unfold loadAtom_call.
    rewrite bool_decide_eq_false_2 by lia.
    rewrite Hsize, (proj2 (Z.eqb_neq atomSize 0)) by lia.
    rewrite Hname, Hvalue. cbv zeta. cbn [length replicate app].
    rewrite (IH answers (seek + atomSize) parent Hrest Hend). reflexivity.
Qed.

(** ** Text, pictures and unknown classes *)


(** ** An empty source *)

(** X12.  Of a source without bytes the decode pass reads no header and
    returns the empty mapping, and the load pass still requests the first
    eight bytes before it calls the success callback. *)
Theorem empty_source_yields_no_tags data fuel answers tags :
  getSize data <= 0 ->
  _parseData data (S fuel) tags = Some ∅
  /\ readAtom_visits data (S fuel) 0 ∅ VUndefined (Num 0) (Num (getSize data)) None = []
  /\ _loadData data [] = ([(0, 7)], None)
  /\ _loadData data (true :: answers) = ([(0, 7)], Some onSuccess)
  /\ _loadData data (false :: answers) = ([(0, 7)], Some onError).
Proof.
  intros Hempty.
  assert (Hstep : readAtom_iteration data ∅ VUndefined (Num 0) (Num (getSize data)) None = Return ∅)
    by (by apply iteration_end).
  repeat split.
  - unfold _parseData, _readAtom. cbn [Js.add]. rewrite Z.add_0_l.
    by rewrite readAtom_loop_S, Hstep.
  - rewrite readAtom_visits_S, Hstep, lt_Num, bool_decide_eq_false_2 by lia. done.
  - cbn [_loadData]. rewrite loadAtom_unfold. unfold loadAtom_call.
    by rewrite bool_decide_eq_true_2 by lia.
Qed.

(** ** The nesting level and the path *)

Lemma dots_append a b : dots (a +:+ b) = (dots a + dots b)%nat.
Proof. induction a as [|c a IH]; simpl; [done|]. rewrite IH. lia. Qed.

Lemma container_name atomName :
  _isContainerAtom atomName = true -> dots atomName = 0%nat /\ atomName ≠ "".
Proof.
  unfold _isContainerAtom. rewrite bool_decide_eq_true. intros Hname.
  repeat (apply elem_of_cons in Hname as [->|Hname]; [done|]).
  by apply elem_of_nil in Hname.
Qed.

Lemma visits_pathAtLevel data fuel : forall level tag atomData seek stop parent,
  pathAtLevel level parent ->
  Forall (fun v => pathAtLevel (visit_level v) (visit_parent v))
    (readAtom_visits data fuel level tag atomData seek stop parent).
Proof.
  induction fuel as [|fuel IH]; intros level tag atomData seek stop parent Hpath; [constructor|].
  rewrite readAtom_visits_S. apply Forall_app. split.
  - destruct seek as [seek|]; [|constructor].
    destruct (Js.lt (Num seek) stop); repeat constructor. done.
  - unfold readAtom_iteration.
    destruct seek as [seek|]; [|constructor].
    destruct (Js.lt (Num seek) stop); [|constructor].
    destruct (Js.isZero _); [constructor|].
    destruct (_isContainerAtom _) eqn:Hcont; [|by apply IH].
    apply IH. apply container_name in Hcont as [Hdots Hname].
    destruct parent as [p|]; simpl in *.
    + destruct Hpath as [Hp ->]. apply String.eqb_neq in Hp. rewrite Hp.
      split; [by destruct p|]. rewrite !dots_append, Hdots. simpl. lia.
    + subst level. by rewrite Hdots.
Qed.

(** X13.  The decode pass holds no path at nesting level 0 and, at a
    deeper level, a path of as many container names as the level; so the
    headers it reads under [moov.udta.meta.ilst], the atoms it decodes,
    are all read at nesting level 4. *)
Theorem tags_are_decoded_at_level_four data fuel v :
  v ∈ readAtom_visits data fuel 0 ∅ VUndefined (Num 0) (Num (getSize data)) None ->
  pathAtLevel (visit_level v) (visit_parent v)
  /\ (visit_parent v = Some metadataPath -> visit_level v = 4%nat)
  /\ (visit_level v = 0%nat <-> visit_parent v = None).
Proof.
  intros Hv.
  pose proof (visits_pathAtLevel data fuel 0 ∅ VUndefined (Num 0) (Num (getSize data)) None
                eq_refl) as Hall.
  rewrite Forall_forall in Hall. specialize (Hall v Hv).
  split; [exact Hall|]. unfold pathAtLevel in Hall.
  destruct (visit_parent v) as [p|]; split.
  - intros [= ->]. by destruct Hall as [_ ->].
  - destruct Hall as [_ ->]. by split.
  - done.
  - done.
Qed.

(** ** The further properties at the sample files *)

Example m4a_bytes :
  Sample.m4a =
    [ 16; 0; 0; 0; 102; 116; 121; 112;       (* 0: ftyp, 16 bytes *)
      77; 52; 65; 32; 0; 0; 0; 0;            (* 8: the brand "M4A " *)
      96; 0; 0; 0; 109; 111; 111; 118;       (* 16: moov, 96 bytes *)
      88; 0; 0; 0; 117; 100; 116; 97;        (* 24: udta, 88 bytes *)
      80; 0; 0; 0; 109; 101; 116; 97;        (* 32: meta, 80 bytes *)
      0; 0; 0; 0;                            (* 40: next_item_id *)
      68; 0; 0; 0; 105; 108; 115; 116;       (* 44: ilst, 68 bytes *)
      28; 0; 0; 0; 169; 110; 97; 109;        (* 52: the title, 28 bytes *)
      20; 0; 0; 0; 100; 97; 116; 97;         (* 60: data, 20 bytes *)
      0; 0; 0; 1; 0; 0; 0; 0;                (* 68: version, class 1, locale *)
      83; 111; 110; 103;                     (* 76: "Song" *)
      32; 0; 0; 0; 116; 114; 107; 110;       (* 80: trkn, 32 bytes *)
      24; 0; 0; 0; 100; 97; 116; 97;         (* 88: data, 24 bytes *)
      0; 0; 0; 0; 0; 0; 0; 0;                (* 96: version, class 0, locale *)
      0; 0; 0; 5; 0; 12; 0; 0;               (* 104: track 5 of 12 *)
      24; 0; 0; 0; 109; 100; 97; 116;        (* 112: mdat, 24 bytes *)
      255; 255; 255; 255; 255; 255; 255; 255;
      255; 255; 255; 255; 255; 255; 255; 255 ].
Proof. reflexivity. Qed.

(** The file is recognised, loaded and decoded. *)
Example m4a_is_read :
  canReadTagFormat (inRange getTagIdentifierByteRange (Num <$> Sample.m4a)) = true
  /\ _loadData (ArrayFileReader.make Sample.m4a) (replicate 9 true)
     = ([(0, 7); (16, 24); (24, 32); (32, 40); (44, 52); (52, 60); (52, 88);
         (80, 120); (112, 144)], Some onSuccess)
  /\ _parseData (ArrayFileReader.make Sample.m4a) 9 None
     = Some (<["count" := VNumber (Num 12)]>
               (<["trkn" := VNumber (Num 5)]>
                  (<[String c169 "nam" := VString "Song"]> ∅))).
Proof. repeat split; vm_compute; reflexivity. Qed.

(** An atom of unlisted class after a title gets the title as its value,
    and [undefined] when it comes first. *)
Example parseData_unlisted_class :
  _parseData (ArrayFileReader.make (Sample.tagged (Sample.nam ++ Sample.unkn))) 7 None
  = Some (<["unkn" := VString "Song"]> (<[String c169 "nam" := VString "Song"]> ∅))
  /\ _parseData (ArrayFileReader.make (Sample.tagged (Sample.unkn ++ Sample.nam))) 7 None
     = Some (<[String c169 "nam" := VString "Song"]> (<["unkn" := VUndefined]> ∅)).
Proof. split; vm_compute; reflexivity. Qed.

(** A comment is stored inside [{text: ...}]. *)
Example parseData_comment :
  _parseData (ArrayFileReader.make (Sample.tagged Sample.cmt)) 6 None
  = Some (<[String c169 "cmt" := VComment (VString "hello")]> ∅).
Proof. vm_compute. reflexivity. Qed.

Lemma m4a_unsigned : Forall (fun b => 0 <= b) Sample.m4a.
Proof.
  apply (bool_decide_unpack (Forall (fun b => 0 <= b) Sample.m4a)).
  vm_compute. exact I.
Qed.

Lemma m4a_visits :
  readAtom_visits (ArrayFileReader.make Sample.m4a) 9 0 ∅ VUndefined
    (Num 0) (Num (getSize (ArrayFileReader.make Sample.m4a))) None
  = [ Visit 0 0 None; Visit 0 16 None; Visit 1 24 (Some "moov");
      Visit 2 32 (Some "moov.udta"); Visit 3 44 (Some "moov.udta.meta");
      Visit 4 52 (Some metadataPath); Visit 4 80 (Some metadataPath) ].
Proof. vm_compute. reflexivity. Qed.

(** X3 at the sample file, every request answered by a success. *)
Lemma loader_chain_ends_witness :
  (_loadAtom (ArrayFileReader.make Sample.m4a) (replicate 136 true) 0 "").2
  = Some onSuccess.
Proof.
  refine (proj1 (proj2
    (loader_chain_ends (ArrayFileReader.make Sample.m4a) (replicate 136 true) 0 "" _ _)) _).
  - apply array_sizes_unsigned, m4a_unsigned.
  - rewrite length_replicate. simpl. lia.
  - by apply Forall_replicate.
Defined.

(** X5 at the header of the atom [trkn] of the sample file, at 80. *)
Lemma loader_requests_every_header_the_decoder_reads_witness :
  exists range,
    range ∈ (_loadData (ArrayFileReader.make Sample.m4a) (replicate 10 true)).1
    /\ coversHeader range 80.
Proof.
  refine (loader_requests_every_header_the_decoder_reads
            (ArrayFileReader.make Sample.m4a) 9 9
            (Visit 4 80 (Some metadataPath)) _ _ _ _).
  - apply array_sizes_unsigned, m4a_unsigned.
  - lia.
  - rewrite m4a_visits. do 6 right. left.
  - simpl. lia.
Defined.

(** X6 at the atom [trkn] of the sample file: 32 bytes from 80 on. *)
Lemma loader_requests_every_atom_the_decoder_decodes_witness :
  (80, 80 + 32 + 8)
    ∈ (_loadData (ArrayFileReader.make Sample.m4a) (replicate 10 true)).1.
Proof.
  refine (loader_requests_every_atom_the_decoder_decodes
            (ArrayFileReader.make Sample.m4a) 9 9
            (Visit 4 80 (Some metadataPath)) 32 _ _ _ _ _ _ _ _).
  - apply array_sizes_unsigned, m4a_unsigned.
  - lia.
  - rewrite m4a_visits. do 6 right. left.
  - simpl. lia.
  - reflexivity.
  - vm_compute; reflexivity.
  - discriminate.
  - vm_compute; reflexivity.
Defined.

(** X7 at the sample file, which has 136 bytes. *)
Lemma decode_pass_returns_witness :
  exists result,
    forall fuel,
      (Z.to_nat 136 + 2 <= fuel)%nat ->
      _parseData (ArrayFileReader.make Sample.m4a) fuel None = Some result.
Proof.
  refine (proj1
    (decode_pass_returns (ArrayFileReader.make Sample.m4a) 136 None _ _ _)).
  - apply array_sizes_unsigned, m4a_unsigned.
  - apply (array_nothing_after Sample.m4a).
  - lia.
Defined.

(** X8 at a file whose [meta] atom has no children. *)
Lemma nothing_is_stored_off_the_metadata_path_witness :
  _parseData (ArrayFileReader.make (Sample.emptyMeta [])) 6 None = Some ∅
  /\ (∅ : Tag) = ∅.
Proof.
  split; [vm_compute; reflexivity|].
  refine (nothing_is_stored_off_the_metadata_path
            (ArrayFileReader.make (Sample.emptyMeta [])) 6 None ∅ _ _).
  - vm_compute; reflexivity.
  - intros v Hv. vm_compute in Hv.
    repeat (apply elem_of_cons in Hv as [->|Hv]; [discriminate|]).
    by apply elem_of_nil in Hv.
Defined.

(** X9 at the children of [ilst] in
    [Sample.tagged (Sample.nam ++ Sample.unkn)]: the title at 36 and the
    atom of unlisted class at 64, up to 90.  The second pass stores what
    the first has left in the variable. *)
Lemma value_atoms_are_decoded_in_file_order_witness :
  readAtom_loop (ArrayFileReader.make (Sample.tagged (Sample.nam ++ Sample.unkn)))
    3 ∅ VUndefined (Num 36) (Num 90) (Some metadataPath)
  = Some (<["unkn" := VString "Song"]> (<[String c169 "nam" := VString "Song"]> ∅)).
Proof.
  destruct (value_atoms_are_decoded_in_file_order
              (ArrayFileReader.make (Sample.tagged (Sample.nam ++ Sample.unkn)))
              ∅ VUndefined 36 90 [(String c169 "nam", 28); ("unkn", 26)])
    as (Hwalk & _).
  - vm_compute. repeat split; reflexivity.
  - reflexivity.
  - etransitivity; [exact Hwalk|]. vm_compute. reflexivity.
Defined.

(** X10 at the same two atoms, with the two requests answered and the
    third one pending. *)
Lemma loader_requests_along_value_atoms_witness :
  _loadAtom (ArrayFileReader.make Sample.m4a) [true; true] 52 metadataPath
  = ([(52, 88); (80, 120); (112, 144)], None).
Proof.
  refine (loader_requests_along_value_atoms
            (ArrayFileReader.make Sample.m4a)
            [(String c169 "nam", 28); ("trkn", 32)] [] 52 metadataPath _ _).
  - vm_compute. repeat split; reflexivity.
  - vm_compute. discriminate.
Defined.


(** X12 at the source without bytes. *)
Lemma empty_source_yields_no_tags_witness :
  _parseData (ArrayFileReader.make []) 1 None = Some ∅
  /\ _loadData (ArrayFileReader.make []) [true] = ([(0, 7)], Some onSuccess).
Proof.
  destruct (empty_source_yields_no_tags (ArrayFileReader.make []) 0 [] None)
    as (Hparse & _ & _ & Hload & _).
  - simpl. lia.
  - split; [exact Hparse|exact Hload].
Defined.

(** X13 at the atom [trkn] of the sample file. *)
Lemma tags_are_decoded_at_level_four_witness :
  pathAtLevel 4 (Some metadataPath).
Proof.
  refine (proj1
    (tags_are_decoded_at_level_four (ArrayFileReader.make Sample.m4a) 9
       (Visit 4 80 (Some metadataPath)) _)).
  rewrite m4a_visits. do 6 right. left.
Defined.
